(** * python-statemachine: the [States] registry (statemachine/states.py)

    A shallow embedding of class [States] and of its enumeration adapter
    [States.from_enum], together with the properties of the registry that
    the specification states.

    Layout: exceptions and run-time values; the insertion-ordered [dict];
    the interface of class [State]; class [States]; the vocabulary of the
    properties and the sample data; lemmas; the properties of the registry
    and of the adapter; worked examples on the sample data. *)

From stdpp Require Import base list strings.
From Stdlib Require Import ZArith.

Set Warnings "-register-all".
Set Default Proof Using "Type".

(** ** Exceptions *)

(** The exceptions that the modelled code can raise.  [AttributeError] is the
    exception Python itself raises for a missing attribute. *)
Inductive PyExc : Type :=
| AttributeError (msg : string)
| TypeError (msg : string)
| KeyError (key : string).

(** A computation that returns a value or raises. *)
Inductive Exc (A : Type) : Type :=
| Return (a : A)
| Raise (e : PyExc).
Arguments Return {A} a.
Arguments Raise {A} e.

#[global] Instance Exc_ret : MRet Exc := fun A a => Return a.
#[global] Instance Exc_bind : MBind Exc :=
  fun A B f m => match m with Return a => f a | Raise e => Raise e end.
#[global] Instance Exc_fmap : FMap Exc :=
  fun A B f m => match m with Return a => Return (f a) | Raise e => Raise e end.

(** [is_missing_attribute_signal e]: [e] is the generic signal Python uses for
    "this object has no such attribute". *)
Definition is_missing_attribute_signal (e : PyExc) : bool :=
  match e with AttributeError _ => true | _ => false end.

(** ** Run-time values

    The objects that reach [from_enum]: [None], integers (the scalars of the
    enumerations modelled here), lists, members of an [Enum] class and [Enum]
    classes.  Every object but [None] carries the address that is its
    identity; [None] is a singleton.  A member records whether its class
    mixes in [int], as [IntEnum] does: such a member hashes and compares as
    its value, and a member of a plain [Enum] by identity. *)
Inductive PyObj : Type :=
| PyNone
| PyInt (a : nat) (z : Z)
| PyList (a : nat) (elts : list PyObj)
| PyMember (a : nat) (name : string) (value : PyObj) (mixed : bool)
| PyEnum (a : nat) (members : list PyObj).

(** [id(o)], with [None] standing for the address of the singleton. *)
Definition py_id (o : PyObj) : option nat :=
  match o with
  | PyNone => None
  | PyInt a _ | PyList a _ | PyMember a _ _ _ | PyEnum a _ => Some a
  end.

(** [x is y] *)
Definition py_is (x y : PyObj) : bool := bool_decide (py_id x = py_id y).

(** The type name the interpreter puts into its messages (for a member and
    an enumeration, the generic one in place of the name of the class). *)
Definition type_name (o : PyObj) : string :=
  match o with
  | PyNone => "NoneType"
  | PyInt _ _ => "int"
  | PyList _ _ => "list"
  | PyMember _ _ _ _ => "Enum"
  | PyEnum _ _ => "EnumType"
  end.

Definition no_attribute (o : PyObj) (attr : string) : PyExc :=
  AttributeError ("'" +:+ type_name o +:+ "' object has no attribute '" +:+ attr +:+ "'").

(** [e.name] and [e.value]: only members of an enumeration have them. *)
Definition getattr_name (e : PyObj) : Exc string :=
  match e with
  | PyMember _ n _ _ => mret n
  | _ => Raise (no_attribute e "name")
  end.

Definition getattr_value (e : PyObj) : Exc PyObj :=
  match e with
  | PyMember _ _ v _ => mret v
  | _ => Raise (no_attribute e "value")
  end.

(** [iter(o)] followed by the traversal: a list yields its elements, an
    [Enum] class its members in declaration order; nothing else here is
    iterable. *)
Definition py_iter (o : PyObj) : Exc (list PyObj) :=
  match o with
  | PyList _ l => mret l
  | PyEnum _ ms => mret ms
  | _ => Raise (TypeError ("'" +:+ type_name o +:+ "' object is not iterable"))
  end.

(** [hash(o)] succeeds on everything here but a list. *)
Definition hashable (o : PyObj) : bool :=
  match o with PyList _ _ => false | _ => true end.

(** The integer that a hashable object hashes and compares as, when it has
    one: an [int], and a member of an enumeration that mixes in [int]. *)
Definition int_key (o : PyObj) : option Z :=
  match o with
  | PyInt _ z => Some z
  | PyMember _ _ (PyInt _ z) true => Some z
  | _ => None
  end.

(** The comparison a set applies to two hashable objects, [x is y or x == y]
    (the hashes of two objects that pass it agree).  Integers and members
    with an [int] mixed in compare by value, with each other too; members of
    a plain [Enum], classes and [None] compare by identity. *)
Definition key_eq (x y : PyObj) : bool :=
  py_is x y ||
  match int_key x, int_key y with
  | Some a, Some b => bool_decide (a = b)
  | _, _ => false
  end.

(** A [set] as the list of its elements, without repetition. *)
Definition set_contains (s : list PyObj) (x : PyObj) : Exc bool :=
  if hashable x then mret (existsb (key_eq x) s)
  else Raise (TypeError ("unhashable type: '" +:+ type_name x +:+ "'")).

(** [set(l)]: the elements are added one by one; an unhashable one raises. *)
Fixpoint set_add_all (s : list PyObj) (l : list PyObj) : Exc (list PyObj) :=
  match l with
  | [] => mret s
  | x :: l' =>
      present ← set_contains s x;
      set_add_all (if present : bool then s else s ++ [x]) l'
  end.

Definition py_set (l : list PyObj) : Exc (list PyObj) := set_add_all [] l.

(** ** The insertion-ordered dictionary with string keys *)
Module Dict.
Definition t (V : Type) : Type := list (string * V).

Section ops.
Context {V : Type}.

Definition empty : t V := [].
Definition keys (d : t V) : list string := d.*1.
Definition values (d : t V) : list V := d.*2.
Definition items (d : t V) : list (string * V) := d.
Definition len (d : t V) : nat := length d.

Fixpoint get (d : t V) (k : string) : option V :=
  match d with
  | [] => None
  | (k', v) :: d' => if String.eqb k' k then Some v else get d' k
  end.

(** [k in d] *)
Definition contains (d : t V) (k : string) : bool :=
  match get d k with Some _ => true | None => false end.

(** [d[k]] *)
Definition getitem (d : t V) (k : string) : Exc V :=
  match get d k with Some v => mret v | None => Raise (KeyError k) end.

(** [d[k] = v]: an existing key keeps its position and gets the new
    value; a new key goes to the end. *)
Fixpoint setitem (d : t V) (k : string) (v : V) : t V :=
  match d with
  | [] => [(k, v)]
  | (k', v') :: d' =>
      if String.eqb k' k then (k', v) :: d' else (k', v') :: setitem d' k v
  end.

(** The invariant of every dictionary: no key occurs twice. *)
Definition wf (d : t V) : Prop := NoDup (keys d).
End ops.
End Dict.

(** ** The interface of class [State]

    Class [State] belongs to another module, statemachine/state.py; the
    registry uses it through the operations below and is verified against
    this interface.
    [State_new v i f] is the call [State(value=v, initial=i, final=f)], and
    [State_eq a b] is the comparison that [list.__eq__] applies to two
    elements, [a is b or a == b]. *)
Class StateClass (State : Type) : Type := {
  State_id : State → string;
  State_value : State → PyObj;
  State_initial : State → bool;
  State_final : State → bool;
  State_new : PyObj → bool → bool → State;
  State_eq : State → State → bool;
}.

(** What the constructor and the attributes of [State] are taken to
    satisfy: an attribute reads back the argument it was built from. *)
Definition State_new_reads_back `{StateClass State} : Prop :=
  ∀ v i f,
    State_value (State_new v i f) = v ∧
    State_initial (State_new v i f) = i ∧
    State_final (State_new v i f) = f.

(** The element comparison starts with an identity test, so an object
    always compares equal to itself. *)
Definition State_eq_reflexive `{StateClass State} : Prop :=
  ∀ s, State_eq s s = true.

(** Modelled from the spec: [ensure_iterable] of statemachine/utils.py, the
    normalisation of the final selector, "accepting either a single constant
    or a collection, uniformly": a collection is passed on as the sequence
    of its elements, and any other object (a single constant, or the [None]
    of an absent selector) as the one-element sequence holding it. *)
Definition ensure_iterable (obj : PyObj) : list PyObj :=
  match py_iter obj with
  | Return l => l
  | Raise _ => [obj]
  end.

(** ** Class [States] *)
Section States.
Context `{StateClass State}.

(** An instance has one attribute, the dictionary [_states]. *)
Record States : Type := { _states : Dict.t State }.

(** [__init__(self, states=None)]: the argument is stored as it is, without
    a copy or a check, and an absent one becomes the empty dictionary. *)
Definition __init__ (states : option (Dict.t State)) : States :=
  {| _states := match states with Some d => d | None => Dict.empty end |}.

(** The call [States(states)].  Neither the allocation nor [__init__] has a
    path that raises. *)
Definition States_call (states : option (Dict.t State)) : Exc States :=
  mret (__init__ states).

(** *** Iterators

    [iter(d.values())] and [iter(a_list)] are cursors over a sequence.  The
    cursor belongs to the iterator object, not to the object iterated, and
    the sequence is the one present when the iterator is made (the code
    never changes a registry while it traverses it). *)
Record Iterator : Type := { it_seq : list State; it_pos : nat }.

(** [next(it)]: the element under the cursor and the advanced iterator, or
    [None] for [StopIteration]. *)
Definition next (it : Iterator) : option State * Iterator :=
  match it_seq it !! it_pos it with
  | Some x => (Some x, {| it_seq := it_seq it; it_pos := S (it_pos it) |})
  | None => (None, it)
  end.

(** [n] calls of [next], the results dropped. *)
Fixpoint advance (n : nat) (it : Iterator) : Iterator :=
  match n with
  | 0 => it
  | S n' => advance n' (next it).2
  end.

Fixpoint drain (fuel : nat) (it : Iterator) : list State :=
  match fuel with
  | 0 => []
  | S fuel' =>
      match next it with
      | (Some x, it') => x :: drain fuel' it'
      | (None, _) => []
      end
  end.

(** [list(it)]: [next] until [StopIteration]; the length of the sequence
    bounds the number of calls. *)
Definition list_ (it : Iterator) : list State :=
  drain (length (it_seq it)) it.

Definition __iter__ (self : States) : Iterator :=
  {| it_seq := Dict.values (_states self); it_pos := 0 |}.

Definition __len__ (self : States) : nat := Dict.len (_states self).

(** [append] assigns [self._states[state.id] = state]; the changed
    registry is returned in place of the mutation. *)
Definition append (self : States) (state : State) : States :=
  {| _states := Dict.setitem (_states self) (State_id state) state |}.

Definition items (self : States) : list (string * State) :=
  Dict.items (_states self).

(** [__getattr__(self, name)]; [self.__class__.__name__] is ["States"]. *)
Definition __getattr__ (self : States) (name : string) : Exc State :=
  if Dict.contains (_states self) name then Dict.getitem (_states self) name
  else Raise (AttributeError (name +:+ " not found in " +:+ "States")).

(** *** Equality *)

(** The things [list(...)] is applied to in [__eq__]. *)
Class Iterable (A : Type) : Type := iter : A → Iterator.
#[global] Instance States_Iterable : Iterable States := __iter__.
#[global] Instance list_Iterable : Iterable (list State) :=
  fun l => {| it_seq := l; it_pos := 0 |}.

(** [v == w] on lists: lists of different lengths are unequal, and lists of
    one length are equal when no position holds a pair of unequal
    elements. *)
Definition list_eq (v w : list State) : bool :=
  if negb (length v =? length w) then false
  else forallb (fun p => State_eq p.1 p.2) (zip v w).

Definition __eq__ {A : Type} `{Iterable A} (self : States) (other : A) : bool :=
  list_eq (list_ (iter self)) (list_ (iter other)).

(** *** Attribute access

    [states.name] first searches the instance and its class, and calls
    [__getattr__] only when that search finds nothing. *)
Inductive Attribute : Type :=
| ClassAttribute (name : string)
| InstanceAttribute (d : Dict.t State)
| Entity (s : State).

(** The names bound in the body of class [States]. *)
Definition class_namespace : list string :=
  ["__init__"; "__repr__"; "__eq__"; "__getattr__"; "__len__"; "__iter__";
   "append"; "items"; "from_enum"].

(** [implicit] lists the names the class has without the source spelling
    them: those inherited from [object], and [__doc__], [__module__],
    [__dict__] and the like. *)
Definition getattr (implicit : list string) (self : States) (name : string)
  : Exc Attribute :=
  if bool_decide (name ∈ class_namespace ++ implicit) then
    mret (ClassAttribute name)
  else if String.eqb name "_states" then
    mret (InstanceAttribute (_states self))
  else
    Entity <$> __getattr__ self name.

(** *** The enumeration adapter *)

(** A dictionary comprehension [{k: v for e in l}]: the pairs are computed
    and stored from left to right, and the first exception ends it. *)
Fixpoint dict_comprehension (body : PyObj → Exc (string * State))
    (l : list PyObj) (acc : Dict.t State) : Exc (Dict.t State) :=
  match l with
  | [] => mret acc
  | e :: l' =>
      kv ← body e;
      dict_comprehension body l' (Dict.setitem acc kv.1 kv.2)
  end.

(** [from_enum(cls, enum_type, initial, final=None, use_enum_instance=False)]
    with [cls] the class [States]; an absent [final] is [PyNone]. *)
Definition from_enum (enum_type initial final : PyObj)
    (use_enum_instance : bool) : Exc States :=
  final_set ← py_set (ensure_iterable final);
  members ← py_iter enum_type;
  d ← dict_comprehension
        (fun e =>
           k ← getattr_name e;
           v ← (if use_enum_instance then mret e else getattr_value e);
           f ← set_contains final_set e;
           mret (k, State_new v (py_is e initial) f))
        members Dict.empty;
  States_call (Some d).
End States.

(** ** Vocabulary of the properties *)

Definition is_member (o : PyObj) : Prop :=
  match o with PyMember _ _ _ _ => True | _ => False end.

Definition member_name (o : PyObj) : string :=
  match o with PyMember _ n _ _ => n | _ => "" end.

Definition member_value (o : PyObj) : PyObj :=
  match o with PyMember _ _ v _ => v | _ => PyNone end.

(** A member of a plain [Enum], without a mixed-in value type. *)
Definition is_plain_member (o : PyObj) : Prop :=
  match o with PyMember _ _ _ false => True | _ => False end.

(** Among the objects of [l], one address is one object. *)
Definition coherent (l : list PyObj) : Prop :=
  ∀ x y, x ∈ l → y ∈ l → py_id x = py_id y → x = y.

(** No two positions of [s] hold elements that the comparison of a set
    identifies: [s] lists a set. *)
Definition lists_a_set (s : list PyObj) : Prop :=
  ∀ i j x y, s !! i = Some x → s !! j = Some y → key_eq x y = true → i = j.

(** [enum_type] iterates as [ms], the members of an enumeration: a member
    has a name and a value, and no two members share a name. *)
Definition enumeration (enum_type : PyObj) (ms : list PyObj) : Prop :=
  py_iter enum_type = Return ms ∧
  Forall is_member ms ∧
  NoDup (member_name <$> ms).

(** Every constant the final selector designates can go into a set. *)
Definition hashable_selector (final : PyObj) : Prop :=
  Forall (fun x => hashable x = true) (ensure_iterable final).

Section Vocabulary.
Context `{StateClass State}.

(** Every entity is stored under its own id, as [__init__] documents for
    its argument ("keys as State.id"). *)
Definition keyed_by_id (d : Dict.t State) : Prop :=
  Forall (fun kv => kv.1 = State_id kv.2) d.

(** The pair the comprehension stores for the member [e]. *)
Definition entry_of (initial : PyObj) (final_set : list PyObj)
    (use_enum_instance : bool) (e : PyObj) : string * State :=
  (member_name e,
   State_new (if use_enum_instance then e else member_value e)
             (py_is e initial) (existsb (key_eq e) final_set)).

(** The body of the comprehension of [from_enum], under a name. *)
Definition from_enum_body (initial : PyObj) (final_set : list PyObj)
    (use_enum_instance : bool) (e : PyObj) : Exc (string * State) :=
  k ← getattr_name e;
  v ← (if use_enum_instance then mret e else getattr_value e);
  f ← set_contains final_set e;
  mret (k, State_new v (py_is e initial) f).
End Vocabulary.

(** ** A concrete [State] and sample data for the worked examples *)
Module Sample.

(** Modelled from the spec: the StateEntity of the data model, which class
    [State] of statemachine/state.py implements: an [id], a [value] and the
    [initial] and [final] flags.  [State(value=, initial=, final=)] is called
    without an id and leaves it empty; the id identifies an entity, and two
    entities with one id compare equal. *)
Record SimpleState : Type := {
  s_id : string;
  s_value : PyObj;
  s_initial : bool;
  s_final : bool;
}.

#[global] Instance SimpleState_class : StateClass SimpleState := {|
  State_id := s_id;
  State_value := s_value;
  State_initial := s_initial;
  State_final := s_final;
  State_new v i f := {| s_id := ""; s_value := v; s_initial := i; s_final := f |};
  State_eq a b := String.eqb (s_id a) (s_id b);
|}.

Definition plain (id : string) (v : Z) : SimpleState :=
  {| s_id := id; s_value := PyInt 0 v; s_initial := false; s_final := false |}.

Definition A : SimpleState := plain "A" 1.
Definition B : SimpleState := plain "B" 2.
Definition B' : SimpleState := plain "B" 20.
Definition C : SimpleState := plain "C" 3.

(** The registry iterating as [A, B, C]. *)
Definition ABC : States := __init__ (Some [("A", A); ("B", B); ("C", C)]).

(** A state whose id is the name of a method of the registry. *)
Definition state_append : SimpleState := plain "append" 7.
Definition shadowed : States :=
  __init__ (Some [("A", A); ("append", state_append)]).

(** A mapping that breaks the documented contract: the key is not the id. *)
Definition miskeyed : Dict.t SimpleState := [("x", plain "y" 5)].

(** [class Status(Enum): pending = 1; completed = 2], and a constant of
    another enumeration that has the name and the value of
    [Status.pending] without being that object. *)
Definition pending : PyObj := PyMember 101 "pending" (PyInt 1 1) false.
Definition completed : PyObj := PyMember 102 "completed" (PyInt 2 2) false.
Definition Status : PyObj := PyEnum 100 [pending; completed].
Definition foreign_pending : PyObj := PyMember 201 "pending" (PyInt 1 1) false.

(** [class Level(IntEnum): low = 1; high = 2], and the plain integer 2. *)
Definition low : PyObj := PyMember 701 "low" (PyInt 1 1) true.
Definition high : PyObj := PyMember 702 "high" (PyInt 2 2) true.
Definition Level : PyObj := PyEnum 700 [low; high].
Definition two : PyObj := PyInt 2 2.
End Sample.

(** ** The registry as an object that shares its dictionary

    [self._states] is a reference: [__init__] stores the dictionary it is
    given, not a copy, and [append] changes that dictionary in place.  The
    store below holds the dictionaries that exist, by address, and the
    operations act on it. *)
Module Shared.
Section store.
Context `{StateClass State}.

Definition Store : Type := list (Dict.t State).

(** A [States] object holds the address of its dictionary. *)
Record Object : Type := { _states : nat }.

(** The dictionary at an address. *)
Definition dict_at (h : Store) (a : nat) : Dict.t State :=
  default Dict.empty (h !! a).

(** The literal [{}] makes a new dictionary, at a new address. *)
Definition new_dict (h : Store) : nat * Store :=
  (length h, h ++ [Dict.empty]).

(** [__init__(self, states=None)]:
    [self._states = states if states is not None else {}]. *)
Definition __init__ (states : option nat) (h : Store) : Object * Store :=
  match states with
  | Some a => ({| _states := a |}, h)
  | None => ({| _states := (new_dict h).1 |}, (new_dict h).2)
  end.

(** [append]: [self._states[state.id] = state], on the dictionary itself. *)
Definition append (self : Object) (state : State) (h : Store) : Store :=
  alter (fun d => Dict.setitem d (State_id state) state) (_states self) h.

Definition __len__ (self : Object) (h : Store) : nat :=
  Dict.len (dict_at h (_states self)).

(** [items()] returns a view of the dictionary; a view is read when it is
    traversed. *)
Definition items (self : Object) : nat := _states self.
Definition view_pairs (h : Store) (view : nat) : list (string * State) :=
  Dict.items (dict_at h view).

(** The registry an object stands for in a store. *)
Definition contents (h : Store) (self : Object) : States :=
  Build_States (dict_at h (_states self)).
End store.
End Shared.

(** ** Lemmas on dictionaries *)
Module DictFacts.
Import Dict.

Section facts.
Context {V : Type}.
Implicit Types (d : Dict.t V) (k : string) (v : V).

Lemma get_None d k : get d k = None ↔ k ∉ keys d.
Proof.
  induction d as [|[k' v'] d IH]; simpl.
  - split; [intros _; apply not_elem_of_nil | done].
  - destruct (String.eqb_spec k' k) as [->|Hne].
    + split; [done | intros Hn; destruct Hn; left].
    + rewrite IH, not_elem_of_cons.
      split; [intros Hn; split; [congruence | exact Hn] | by intros [_ Hn]].
Qed.

Lemma contains_spec d k : contains d k = true ↔ k ∈ keys d.
Proof.
  unfold contains. destruct (get d k) eqn:E.
  - split; [intros _ | done].
    destruct (decide (k ∈ keys d)) as [|Hn]; [done|].
    apply get_None in Hn. congruence.
  - apply get_None in E. split; [done | intros; contradiction].
Qed.

Lemma get_Some_elem d k v : get d k = Some v → (k, v) ∈ d.
Proof.
  induction d as [|[k' v'] d IH]; simpl; [done|].
  destruct (String.eqb_spec k' k) as [->|Hne].
  - intros [= ->]. left.
  - intros Hg. right. auto.
Qed.

Lemma get_elem d k v : wf d → (k, v) ∈ d → get d k = Some v.
Proof.
  unfold wf, keys.
  induction d as [|[k' v'] d IH]; simpl; intros Hnd Hin.
  - by apply elem_of_nil in Hin.
  - apply NoDup_cons in Hnd as [Hk' Hnd].
    apply elem_of_cons in Hin as [[= <- <-]|Hin].
    + by rewrite String.eqb_refl.
    + destruct (String.eqb_spec k' k) as [->|Hne]; [|auto].
      destruct Hk'. change k with (k, v).1. by apply list_elem_of_fmap_2.
Qed.

Lemma setitem_keys_hit d k v : k ∈ keys d → keys (setitem d k v) = keys d.
Proof.
  unfold keys.
  induction d as [|[k' v'] d IH]; simpl; intros Hin.
  - by apply elem_of_nil in Hin.
  - destruct (String.eqb_spec k' k) as [->|Hne]; [done|].
    simpl. f_equal. apply IH.
    apply elem_of_cons in Hin as [->|Hin]; [done | exact Hin].
Qed.

Lemma setitem_miss d k v : k ∉ keys d → setitem d k v = d ++ [(k, v)].
Proof.
  unfold keys.
  induction d as [|[k' v'] d IH]; simpl; intros Hn; [done|].
  apply not_elem_of_cons in Hn as [Hne Hn].
  destruct (String.eqb_spec k' k) as [->|_]; [done|].
  by rewrite IH.
Qed.

(** Assignment to a key at position [i] changes the value at position
    [i] and nothing else. *)
Lemma setitem_values_hit d k v i :
  wf d → keys d !! i = Some k →
  values (setitem d k v) = <[i := v]> (values d).
Proof.
  unfold wf, keys, values.
  revert i. induction d as [|[k' v'] d IH]; simpl; intros i Hnd Hi.
  - done.
  - apply NoDup_cons in Hnd as [Hk' Hnd].
    destruct (String.eqb_spec k' k) as [->|Hne].
    + destruct i as [|i]; simpl in *; [done|].
      destruct Hk'. by eapply list_elem_of_lookup_2.
    + destruct i as [|i]; simpl in *; [congruence|].
      f_equal. by apply IH.
Qed.

Lemma setitem_keys d k v :
  keys (setitem d k v) = if contains d k then keys d else keys d ++ [k].
Proof.
  destruct (contains d k) eqn:E.
  - apply setitem_keys_hit. by apply contains_spec.
  - rewrite setitem_miss.
    + unfold keys. by rewrite fmap_app.
    + intros Hin. apply contains_spec in Hin. congruence.
Qed.

Lemma setitem_wf d k v : wf d → wf (setitem d k v).
Proof.
  unfold wf. rewrite setitem_keys. destruct (contains d k) eqn:E; [done|].
  intros Hnd. apply NoDup_app. split_and!; [done | | apply NoDup_singleton].
  intros x Hx Hx'. apply list_elem_of_singleton in Hx' as ->.
  apply contains_spec in Hx. congruence.
Qed.

(** Storing pairs with pairwise different keys one after the other gives
    the pairs in the order they were stored. *)
Lemma setitem_fold_fresh (l : list (string * V)) d :
  NoDup (keys d ++ l.*1) →
  foldl (fun acc kv => setitem acc kv.1 kv.2) d l = d ++ l.
Proof.
  revert d. induction l as [|[k v] l IH]; simpl; intros d Hnd.
  - by rewrite app_nil_r.
  - apply NoDup_app in Hnd as (Hd & Hdisj & Hl).
    apply NoDup_cons in Hl as [Hk Hl].
    rewrite setitem_miss by (intros Hin; apply (Hdisj _ Hin); left).
    rewrite IH; [by rewrite <- app_assoc|].
    unfold keys in *. rewrite fmap_app. simpl. rewrite <- app_assoc. simpl.
    apply NoDup_app. split_and!; [done | | by apply NoDup_cons].
    intros x Hx Hx'. by apply (Hdisj x).
Qed.
End facts.
End DictFacts.

(** ** Lemmas on iterators and on list equality *)
Section IteratorFacts.
Context `{StateClass State}.
Implicit Types (it : @Iterator State) (self : @States State) (l : list State).

(** Enough fuel drains an iterator down to the end of its sequence. *)
Lemma drain_drop fuel it :
  length (it_seq it) - it_pos it ≤ fuel →
  drain fuel it = drop (it_pos it) (it_seq it).
Proof.
  revert it. induction fuel as [|fuel IH]; intros [l p]; simpl; intros Hf.
  - symmetry. apply drop_ge. lia.
  - unfold next; simpl. destruct (l !! p) as [x|] eqn:E.
    + rewrite IH by (simpl; lia). simpl.
      by rewrite (drop_S l x p E).
    + symmetry. apply drop_ge. by apply lookup_ge_None.
Qed.

Lemma list_fresh l : list_ {| it_seq := l; it_pos := 0 |} = l.
Proof. unfold list_. rewrite drain_drop by (simpl; lia). done. Qed.

Lemma list_iter self : list_ (__iter__ self) = Dict.values (_states self).
Proof. apply list_fresh. Qed.

Lemma advance_fresh n l :
  advance n {| it_seq := l; it_pos := 0 |}
  = {| it_seq := l; it_pos := n `min` length l |}.
Proof.
  assert (∀ p, p ≤ length l →
    advance n {| it_seq := l; it_pos := p |}
    = {| it_seq := l; it_pos := (p + n) `min` length l |}) as Hgen.
  { induction n as [|n IH]; intros p Hp; simpl.
    - f_equal. lia.
    - unfold next; simpl. destruct (l !! p) as [x|] eqn:E; simpl.
      + apply lookup_lt_Some in E. rewrite IH by lia. f_equal. lia.
      + apply lookup_ge_None in E. rewrite IH by lia. f_equal. lia. }
  apply (Hgen 0). lia.
Qed.

(** The [k]-th call of [next] on a new iterator gives the [k]-th element,
    and [StopIteration] from the length of the sequence on. *)
Lemma next_advance_fresh k l :
  (next (advance k {| it_seq := l; it_pos := 0 |})).1 = l !! k.
Proof.
  rewrite advance_fresh. unfold next; simpl.
  destruct (decide (k < length l)) as [Hlt|Hge].
  - rewrite Nat.min_l by lia. by destruct (l !! k).
  - rewrite Nat.min_r by lia.
    rewrite (proj2 (lookup_ge_None l (length l))) by lia.
    symmetry. apply lookup_ge_None. lia.
Qed.

Lemma list_eq_Forall2 v w :
  list_eq v w = true ↔ Forall2 (fun a b => State_eq a b = true) v w.
Proof.
  unfold list_eq. split.
  - destruct (Nat.eqb_spec (length v) (length w)) as [Hlen|]; [simpl|done].
    revert w Hlen. induction v as [|a v IH]; intros [|b w]; simpl; try done.
    intros [= Hlen] [Hab Hrest]%andb_prop. constructor; auto.
  - intros HF. rewrite (Forall2_length _ _ _ HF), Nat.eqb_refl. simpl.
    induction HF as [|a b v w Hab _ IH]; [done|]. simpl. by rewrite Hab.
Qed.

Lemma list_eq_refl v : State_eq_reflexive → list_eq v v = true.
Proof.
  intros Hr. apply list_eq_Forall2. induction v; constructor; auto.
Qed.
End IteratorFacts.

(** ** Lemmas on sets and on the enumeration adapter *)

Lemma py_is_refl x : py_is x x = true.
Proof.
  unfold py_is. by apply bool_decide_eq_true.
Qed.

Lemma py_is_trans x y z : py_is x y = true → py_is y z = true → py_is x z = true.
Proof.
  unfold py_is. rewrite !bool_decide_eq_true. congruence.
Qed.

Lemma key_eq_refl x : key_eq x x = true.
Proof.
  unfold key_eq. by rewrite py_is_refl.
Qed.

Lemma key_eq_sym x y : key_eq x y = key_eq y x.
Proof.
  unfold key_eq, py_is. f_equal.
  - apply bool_decide_ext. split; congruence.
  - destruct (int_key x), (int_key y); try done.
    apply bool_decide_ext. split; congruence.
Qed.

(** On a member of a plain [Enum] the comparison of a set is identity. *)
Lemma key_eq_plain e x : is_plain_member e → key_eq e x = py_is e x.
Proof.
  destruct e as [| | | a n v [|] |]; simpl; try done.
  intros _. unfold key_eq. replace (int_key (PyMember a n v false)) with (@None Z).
  - by rewrite orb_false_r.
  - by destruct v.
Qed.

(** Among coherent objects the comparison of a set is transitive. *)
Lemma key_eq_trans (l : list PyObj) x y z :
  coherent l → x ∈ l → y ∈ l → z ∈ l →
  key_eq x y = true → key_eq y z = true → key_eq x z = true.
Proof.
  intros Hc Hx Hy Hz Hxy Hyz. unfold key_eq in Hxy.
  apply orb_true_iff in Hxy as [Hxy|Hxy].
  - unfold py_is in Hxy. apply bool_decide_eq_true in Hxy.
    by rewrite (Hc x y Hx Hy Hxy).
  - unfold key_eq in Hyz. apply orb_true_iff in Hyz as [Hyz|Hyz].
    + unfold py_is in Hyz. apply bool_decide_eq_true in Hyz.
      rewrite <- (Hc y z Hy Hz Hyz). unfold key_eq. rewrite Hxy.
      apply orb_true_r.
    + unfold key_eq. apply orb_true_iff. right.
      destruct (int_key x) as [a|], (int_key y) as [b|], (int_key z) as [c|];
        try done.
      apply bool_decide_eq_true in Hxy, Hyz. apply bool_decide_eq_true.
      congruence.
Qed.

Lemma existsb_true {A} (f : A → bool) (l : list A) :
  existsb f l = true ↔ ∃ x, x ∈ l ∧ f x = true.
Proof.
  rewrite existsb_exists. split; intros (x & Hx & Hf); exists x; split; auto;
    by apply list_elem_of_In.
Qed.

(** [set(l)] on hashable elements: every element of the result comes from
    [l], and every element of [l] is found in the result. *)
Lemma set_add_all_spec (l s : list PyObj) :
  Forall (fun x => hashable x = true) l →
  ∃ s', set_add_all s l = Return s' ∧
        (∀ x, x ∈ s' → x ∈ s ∨ x ∈ l) ∧
        (∀ x, x ∈ s → x ∈ s') ∧
        (∀ x, x ∈ l → ∃ y, y ∈ s' ∧ key_eq x y = true).
Proof.
  intros Hh. revert s. induction Hh as [|x l Hx Hl IH]; intros s; simpl.
  - exists s. split_and!; [done | auto | auto |].
    intros x Hx. by apply elem_of_nil in Hx.
  - unfold set_contains. rewrite Hx. simpl.
    destruct (existsb (key_eq x) s) eqn:E.
    + destruct (IH s) as (s' & Hs' & Hsub & Hmono & Hall).
      exists s'. split_and!; [done | | done |].
      * intros y Hy. destruct (Hsub y Hy); [by left | right; by right].
      * intros y [->|Hy]%elem_of_cons; [|auto].
        apply existsb_true in E as (z & Hz & Hxz). exists z. auto.
    + destruct (IH (s ++ [x])) as (s' & Hs' & Hsub & Hmono & Hall).
      exists s'. split_and!; [done | | |].
      * intros y Hy. destruct (Hsub y Hy) as [[Hy'|Hy']%elem_of_app|Hy'].
        -- by left.
        -- apply list_elem_of_singleton in Hy' as ->. right. left.
        -- right. by right.
      * intros y Hy. apply Hmono, elem_of_app. by left.
      * intros y [->|Hy]%elem_of_cons; [|auto].
        exists x. split; [|apply key_eq_refl].
        apply Hmono, elem_of_app. right. left.
Qed.

Lemma py_set_spec (l : list PyObj) :
  Forall (fun x => hashable x = true) l →
  ∃ s, py_set l = Return s ∧
       (∀ x, x ∈ s → x ∈ l) ∧
       (∀ x, x ∈ l → ∃ y, y ∈ s ∧ key_eq x y = true).
Proof.
  intros Hh. destruct (set_add_all_spec l [] Hh) as (s & Hs & Hsub & _ & Hall).
  exists s. split_and!; [done | | done].
  intros x Hx. destruct (Hsub x Hx) as [Hn|]; [by apply elem_of_nil in Hn | done].
Qed.

Lemma lists_a_set_snoc (s : list PyObj) (x : PyObj) :
  lists_a_set s → existsb (key_eq x) s = false → lists_a_set (s ++ [x]).
Proof.
  intros Hs Hnew i j a b Hi Hj Hab.
  assert (∀ c, c ∈ s → key_eq x c = false) as Hfresh.
  { intros c Hc. apply not_true_is_false. intros Hxc.
    assert (existsb (key_eq x) s = true) as Hex
      by (apply existsb_true; by exists c).
    congruence. }
  apply lookup_app_Some in Hi as [Hi|[Hli Hi]];
    apply lookup_app_Some in Hj as [Hj|[Hlj Hj]].
  - by apply (Hs i j a b).
  - apply list_lookup_singleton_Some in Hj as [_ <-].
    rewrite key_eq_sym, Hfresh in Hab; [done|].
    by eapply list_elem_of_lookup_2.
  - apply list_lookup_singleton_Some in Hi as [_ <-].
    rewrite Hfresh in Hab; [done|]. by eapply list_elem_of_lookup_2.
  - apply list_lookup_singleton_Some in Hi as [Hi _].
    apply list_lookup_singleton_Some in Hj as [Hj _]. lia.
Qed.

(** [set(...)] keeps one element of those that compare equal. *)
Lemma set_add_all_lists_a_set (l s s' : list PyObj) :
  lists_a_set s → set_add_all s l = Return s' → lists_a_set s'.
Proof.
  revert s. induction l as [|x l IH]; intros s Hs; simpl.
  - by intros [= <-].
  - unfold set_contains. destruct (hashable x); simpl; [|done].
    destruct (existsb (key_eq x) s) eqn:E; apply IH; [done|].
    by apply lists_a_set_snoc.
Qed.

Lemma py_set_lists_a_set (l s : list PyObj) :
  py_set l = Return s → lists_a_set s.
Proof.
  apply set_add_all_lists_a_set. intros i j x y Hi. by rewrite lookup_nil in Hi.
Qed.

Section AdapterFacts.
Context `{StateClass State}.

Lemma from_enum_body_member initial fs flag e :
  is_member e →
  from_enum_body initial fs flag e = Return (entry_of initial fs flag e).
Proof.
  destruct e; simpl; try done. intros _. by destruct flag.
Qed.

Lemma from_enum_body_other initial fs flag e :
  ¬ is_member e →
  from_enum_body initial fs flag e = Raise (no_attribute e "name").
Proof.
  destruct e; simpl; intros Hn; done || by destruct Hn.
Qed.

(** Over members with names that are new and pairwise different, the
    comprehension stores one pair per member, in order. *)
Lemma dict_comprehension_members initial fs flag ms acc :
  Forall is_member ms →
  NoDup (Dict.keys acc ++ (member_name <$> ms)) →
  dict_comprehension (from_enum_body initial fs flag) ms acc
  = Return (acc ++ (entry_of initial fs flag <$> ms)).
Proof.
  intros Hm. revert acc. induction Hm as [|e ms He Hms IH]; intros acc Hnd; simpl.
  - by rewrite app_nil_r.
  - rewrite from_enum_body_member by done. simpl.
    apply NoDup_app in Hnd as (Hacc & Hdisj & Hnd).
    apply NoDup_cons in Hnd as [Hfresh Hnd].
    rewrite DictFacts.setitem_miss by (intros Hin; apply (Hdisj _ Hin); left).
    rewrite IH; [by rewrite <- app_assoc|].
    unfold Dict.keys in *. rewrite fmap_app. simpl. rewrite <- app_assoc. simpl.
    apply NoDup_app. split_and!; [done | | by apply NoDup_cons].
    intros x Hx Hx'. by apply (Hdisj x).
Qed.

(** The first element that is no member ends the comprehension. *)
Lemma dict_comprehension_malformed initial fs flag pre e0 post acc :
  Forall is_member pre → ¬ is_member e0 →
  dict_comprehension (from_enum_body initial fs flag) (pre ++ e0 :: post) acc
  = Raise (no_attribute e0 "name").
Proof.
  intros Hm He0. revert acc. induction Hm as [|e pre He Hpre IH]; intros acc; simpl.
  - by rewrite from_enum_body_other.
  - rewrite from_enum_body_member by done. simpl. apply IH.
Qed.

Lemma from_enum_unfold enum_type initial final flag :
  from_enum enum_type initial final flag
  = (final_set ← py_set (ensure_iterable final);
     members ← py_iter enum_type;
     d ← dict_comprehension (from_enum_body initial final_set flag)
           members Dict.empty;
     States_call (Some d)).
Proof. reflexivity. Qed.

(** On an enumeration of members with pairwise different names and a
    hashable selector, the adapter returns the registry of the entries, in
    declaration order. *)
Lemma from_enum_members enum_type ms initial final flag fs :
  py_iter enum_type = Return ms →
  Forall is_member ms → NoDup (member_name <$> ms) →
  py_set (ensure_iterable final) = Return fs →
  from_enum enum_type initial final flag
  = Return {| _states := entry_of initial fs flag <$> ms |}.
Proof.
  intros Hit Hm Hnd Hfs. rewrite from_enum_unfold, Hfs. simpl.
  rewrite Hit. simpl. by rewrite dict_comprehension_members.
Qed.
End AdapterFacts.

(** ** Properties of the registry *)
Section RegistryProperties.
Context `{StateClass State}.
Implicit Types (self : @States State) (d : Dict.t State) (e s : State).

(** C1. For every registry and every entity [e] whose id is already a key
    of the registry, [append e] replaces the old entity in place, at the
    position [i] of the key: the iteration of the new registry is that of
    the old one with position [i] changed to [e]; every other position, the
    order of the keys and the length stay as they were. *)
Theorem append_replaces_in_place self e i :
  Dict.wf (_states self) →
  Dict.keys (_states self) !! i = Some (State_id e) →
  list_ (__iter__ (append self e)) = <[i := e]> (list_ (__iter__ self)) ∧
  list_ (__iter__ (append self e)) !! i = Some e ∧
  (∀ j, j ≠ i →
     list_ (__iter__ (append self e)) !! j = list_ (__iter__ self) !! j) ∧
  Dict.keys (_states (append self e)) = Dict.keys (_states self) ∧
  __len__ (append self e) = __len__ self.
Proof.
  intros Hwf Hi.
  assert (list_ (__iter__ (append self e)) = <[i := e]> (list_ (__iter__ self)))
    as Heq.
  { rewrite !list_iter. simpl. by apply DictFacts.setitem_values_hit. }
  assert (Dict.keys (_states (append self e)) = Dict.keys (_states self))
    as Hkeys.
  { simpl. apply DictFacts.setitem_keys_hit. by eapply list_elem_of_lookup_2. }
  split_and!; [done | | | done |].
  - rewrite Heq. apply list_lookup_insert_eq.
    rewrite list_iter. unfold Dict.values. rewrite length_fmap.
    apply lookup_lt_Some in Hi. unfold Dict.keys in Hi.
    by rewrite length_fmap in Hi.
  - intros j Hj. rewrite Heq. by apply list_lookup_insert_ne.
  - unfold __len__, Dict.len.
    rewrite <- (length_fmap fst (_states (append self e))).
    rewrite <- (length_fmap fst (_states self)).
    unfold Dict.keys in Hkeys. by rewrite Hkeys.
Qed.

Lemma keyed_by_id_elem d k s : keyed_by_id d → (k, s) ∈ d → k = State_id s.
Proof.
  unfold keyed_by_id. rewrite Forall_forall. intros Hk Hin. exact (Hk _ Hin).
Qed.

Lemma keyed_by_id_pair d s :
  keyed_by_id d → s ∈ Dict.values d → (State_id s, s) ∈ d.
Proof.
  intros Hk ([k s'] & -> & Hin)%list_elem_of_fmap_1. simpl.
  by rewrite <- (keyed_by_id_elem d k s' Hk Hin).
Qed.

Lemma keyed_by_id_keys d name :
  keyed_by_id d →
  name ∈ Dict.keys d ↔ ∃ s, s ∈ Dict.values d ∧ State_id s = name.
Proof.
  intros Hk. split.
  - intros ([k s] & -> & Hin)%list_elem_of_fmap_1. exists s. split.
    + by apply (list_elem_of_fmap_2 snd) in Hin.
    + symmetry. by apply (keyed_by_id_elem d).
  - intros (s & Hs & <-). apply (keyed_by_id_pair d s Hk) in Hs.
    by apply (list_elem_of_fmap_2 fst) in Hs.
Qed.

Lemma getattr_absent self name :
  name ∉ Dict.keys (_states self) →
  __getattr__ self name
  = Raise (AttributeError (name +:+ " not found in States")).
Proof.
  intros Hn. unfold __getattr__.
  destruct (Dict.contains (_states self) name) eqn:E; [|done].
  by apply DictFacts.contains_spec in E.
Qed.

Lemma getattr_present self name s :
  Dict.wf (_states self) → (name, s) ∈ _states self →
  __getattr__ self name = Return s.
Proof.
  intros Hwf Hin. unfold __getattr__, Dict.contains, Dict.getitem.
  by rewrite (DictFacts.get_elem _ _ _ Hwf Hin).
Qed.

(** C2, as corrected.  In a registry that stores every entity under its id,
    lookup-by-name of a name that is the id of no registered entity raises
    [AttributeError], the generic signal of a missing attribute, with the
    message "<name> not found in States"; the code has no error kind of its
    own for it.  When an entity with that id is registered, lookup-by-name
    returns that entity. *)
Theorem lookup_by_name self name :
  Dict.wf (_states self) → keyed_by_id (_states self) →
  ((∀ s, s ∈ Dict.values (_states self) → State_id s ≠ name) →
     ∃ exc, __getattr__ self name = Raise exc ∧
            exc = AttributeError (name +:+ " not found in States") ∧
            is_missing_attribute_signal exc = true) ∧
  (∀ s, s ∈ Dict.values (_states self) → State_id s = name →
     __getattr__ self name = Return s).
Proof.
  intros Hwf Hk. split.
  - intros Hnone. eexists. split_and!; [|reflexivity|reflexivity].
    apply getattr_absent. intros (s & Hs & Hid)%keyed_by_id_keys; [|done].
    by apply (Hnone s).
  - intros s Hs <-. apply getattr_present; [done|].
    by apply keyed_by_id_pair.
Qed.

(** C3.  Iterating a registry built from an ordered mapping yields the
    entities in the order of the mapping, which is the order in which the
    pairs were stored; every call of [__iter__] makes a new iterator that
    starts at the first entry, whatever was consumed from an earlier one;
    and a traversal ends after as many elements as the mapping has. *)
Theorem iteration_in_insertion_order d :
  let self := __init__ (Some d) in
  list_ (__iter__ self) = Dict.values d ∧
  (∀ k, (next (advance k (__iter__ self))).1 = Dict.values d !! k) ∧
  (∀ n, list_ (advance n (__iter__ self)) = drop n (Dict.values d) ∧
        it_pos (__iter__ self) = 0 ∧
        list_ (__iter__ self) = Dict.values d) ∧
  (next (advance (Dict.len d) (__iter__ self))).1 = None ∧
  (∀ pairs : list (string * State),
     d = foldl (fun acc kv => Dict.setitem acc kv.1 kv.2) Dict.empty pairs →
     NoDup pairs.*1 →
     list_ (__iter__ self) = pairs.*2).
Proof.
  intros self.
  assert (list_ (__iter__ self) = Dict.values d) as Hall by apply list_iter.
  split_and!; [done | | | |].
  - intros k. apply next_advance_fresh.
  - intros n. split_and!; [|done|done].
    unfold __iter__. rewrite advance_fresh. unfold list_. simpl.
    rewrite drain_drop by (simpl; lia). simpl.
    destruct (decide (n ≤ length (Dict.values d))).
    + by rewrite Nat.min_l.
    + rewrite Nat.min_r by lia. rewrite !drop_ge by lia. done.
  - unfold __iter__. rewrite next_advance_fresh.
    apply lookup_ge_None. unfold Dict.len, Dict.values. simpl.
    by rewrite length_fmap.
  - intros pairs -> Hnd. rewrite Hall.
    by rewrite DictFacts.setitem_fold_fresh.
Qed.

Lemma Forall2_reverse_ends (R : State → State → Prop) (l : list State) x y :
  Forall2 R l (reverse l) → head l = Some x → last l = Some y → R x y.
Proof.
  intros HF Hx Hy. rewrite <- head_reverse in Hy.
  apply head_Some in Hx as [l1 Hl1]. apply head_Some in Hy as [l2 Hl2].
  rewrite Hl2 in HF. rewrite Hl1 in HF. by apply Forall2_cons_1 in HF as [? _].
Qed.

Lemma eq_iff_Forall2 {A} `{Iterable State A} self (other : A) :
  __eq__ self other = true ↔
  Forall2 (fun a b => State_eq a b = true)
          (list_ (__iter__ self)) (list_ (iter other)).
Proof. unfold __eq__. apply list_eq_Forall2. Qed.

(** C4, as corrected.  Two registries compare equal if and only if the
    sequences they iterate are equal element by element; two registries built
    from the same ordered input compare equal; and reversing the input of one
    breaks equality when the first and the last entity of the input are
    unequal (a reversal that leaves the sequence as it was, as that of an
    input with one entity, keeps the registries equal). *)
Theorem eq_iff_elementwise (r1 r2 : @States State) d :
  State_eq_reflexive →
  (__eq__ r1 r2 = true ↔
     Forall2 (fun a b => State_eq a b = true)
             (list_ (__iter__ r1)) (list_ (__iter__ r2))) ∧
  __eq__ (__init__ (Some d)) (__init__ (Some d)) = true ∧
  (∀ x y, head (Dict.values d) = Some x → last (Dict.values d) = Some y →
          State_eq x y = false →
          __eq__ (__init__ (Some d)) (__init__ (Some (reverse d))) = false).
Proof.
  intros Hrefl. split_and!.
  - exact (eq_iff_Forall2 r1 r2).
  - unfold __eq__. by apply list_eq_refl.
  - intros x y Hx Hy Hxy. apply not_true_is_false. intros Heq.
    apply eq_iff_Forall2 in Heq. unfold iter, States_Iterable in Heq.
    rewrite !list_iter in Heq. simpl in Heq.
    unfold Dict.values in Heq. rewrite fmap_reverse in Heq.
    pose proof (Forall2_reverse_ends _ _ x y Heq Hx Hy). congruence.
Qed.

(** C10.  [__eq__] compares the iterated sequences and nothing else.  Its
    second operand is anything iterable; against a plain list it answers
    whether the list is, element by element, equal to the iteration of the
    registry; and two registries whose entity sequences are element-wise
    equal compare equal whatever their keys are. *)
Theorem eq_any_iterable {A} `{Iterable State A} self (other : A) :
  (__eq__ self other = true ↔
     Forall2 (fun a b => State_eq a b = true)
             (list_ (__iter__ self)) (list_ (iter other))) ∧
  (∀ l : list State,
     __eq__ self l = true ↔
     Forall2 (fun a b => State_eq a b = true) (Dict.values (_states self)) l) ∧
  (∀ d1 d2 : Dict.t State,
     Forall2 (fun a b => State_eq a b = true) (Dict.values d1) (Dict.values d2) →
     __eq__ (__init__ (Some d1)) (__init__ (Some d2)) = true).
Proof.
  split_and!.
  - exact (eq_iff_Forall2 self other).
  - intros l. rewrite eq_iff_Forall2, list_iter.
    unfold iter, list_Iterable. by rewrite list_fresh.
  - intros d1 d2 HF. apply eq_iff_Forall2.
    unfold iter, States_Iterable. by rewrite !list_iter.
Qed.

(** C8.  When a registered entity has an id that is a name bound in the body
    of class [States] (["append"], ["items"], ...), the attribute access
    [states.<id>] finds the class attribute and never reaches [__getattr__], so
    it does not return the entity; the dictionary still holds the entity under
    that key, and both [items()] and iteration yield it. *)
Theorem reserved_name_shadows_entity implicit self s :
  Dict.wf (_states self) → keyed_by_id (_states self) →
  s ∈ Dict.values (_states self) →
  State_id s ∈ class_namespace →
  getattr implicit self (State_id s) = Return (ClassAttribute (State_id s)) ∧
  getattr implicit self (State_id s) ≠ Return (Entity s) ∧
  __getattr__ self (State_id s) = Return s ∧
  (State_id s, s) ∈ items self ∧
  s ∈ list_ (__iter__ self).
Proof.
  intros Hwf Hk Hs Hres.
  assert (getattr implicit self (State_id s)
          = Return (ClassAttribute (State_id s))) as Hget.
  { unfold getattr. rewrite bool_decide_eq_true_2; [done|].
    apply elem_of_app. by left. }
  pose proof (keyed_by_id_pair _ _ Hk Hs) as Hpair.
  split_and!; [done | by rewrite Hget | by apply getattr_present | done |].
  by rewrite list_iter.
Qed.
End RegistryProperties.

(** ** Properties of the enumeration adapter *)
Section AdapterProperties.
Context `{StateClass State}.
Implicit Types (enum_type initial final : PyObj) (ms fs : list PyObj).

Lemma entries_keys initial fs flag ms :
  Dict.keys (entry_of initial fs flag <$> ms) = member_name <$> ms.
Proof. unfold Dict.keys. by rewrite <- list_fmap_compose. Qed.

Lemma entries_values initial fs flag ms :
  Dict.values (entry_of initial fs flag <$> ms)
  = (fun e => (entry_of initial fs flag e).2) <$> ms.
Proof. unfold Dict.values. by rewrite <- list_fmap_compose. Qed.

(** The adapter succeeds on an enumeration and a hashable selector; the set
    it normalises the selector into is [fs]. *)
Lemma from_enum_enumeration enum_type ms initial final flag :
  enumeration enum_type ms → hashable_selector final →
  ∃ fs, py_set (ensure_iterable final) = Return fs ∧
        from_enum enum_type initial final flag
        = Return {| _states := entry_of initial fs flag <$> ms |}.
Proof.
  intros (Hit & Hm & Hnd) Hh.
  destruct (py_set_spec _ Hh) as (fs & Hfs & _).
  exists fs. split; [done|]. by apply from_enum_members.
Qed.

Lemma Forall2_entries (P : PyObj → State → Prop) initial fs flag ms :
  (∀ e, e ∈ ms → P e (entry_of initial fs flag e).2) →
  Forall2 P ms
    (list_ (__iter__ {| _states := entry_of initial fs flag <$> ms |})).
Proof.
  intros HP. rewrite list_iter. simpl. rewrite entries_values.
  apply Forall2_fmap_r, Forall_Forall2_diag, Forall_forall. exact HP.
Qed.

(** C5.  For every constant [B] of the enumeration, the entity registered
    under the name of [B] has as its value the scalar of [B] when
    [use_enum_instance] is unset, and [B] itself, the same object, when it is
    set. *)
Theorem from_enum_value enum_type ms initial final use_enum_instance :
  State_new_reads_back →
  enumeration enum_type ms → hashable_selector final →
  ∃ r, from_enum enum_type initial final use_enum_instance = Return r ∧
       ∀ B, B ∈ ms →
         ∃ st, __getattr__ r (member_name B) = Return st ∧
               (use_enum_instance = false → State_value st = member_value B) ∧
               (use_enum_instance = true →
                  State_value st = B ∧ py_is (State_value st) B = true).
Proof.
  intros Hnew Henum Hh.
  destruct (from_enum_enumeration enum_type ms initial final use_enum_instance
              Henum Hh) as (fs & _ & Hr).
  destruct Henum as (_ & _ & Hnd).
  eexists. split; [exact Hr|]. intros B HB.
  exists (entry_of initial fs use_enum_instance B).2. split_and!.
  - apply getattr_present; simpl.
    + unfold Dict.wf. by rewrite entries_keys.
    + by apply (list_elem_of_fmap_2 (entry_of initial fs use_enum_instance)) in HB.
  - intros ->. simpl. apply Hnew.
  - intros ->. simpl.
    destruct (Hnew B (py_is B initial) (existsb (key_eq B) fs)) as (-> & _).
    split; [done | apply py_is_refl].
Qed.

(** C6.  The entity built for a constant is marked initial exactly when the
    constant is the designated initial object, by identity.  When no constant
    of the enumeration is that object the adapter still returns a registry,
    and no entity of it is marked initial. *)
Theorem from_enum_initial enum_type ms initial final use_enum_instance :
  State_new_reads_back →
  enumeration enum_type ms → hashable_selector final →
  ∃ r, from_enum enum_type initial final use_enum_instance = Return r ∧
       Forall2 (fun e st => State_initial st = true ↔ py_id e = py_id initial)
               ms (list_ (__iter__ r)) ∧
       ((∀ e, e ∈ ms → py_id e ≠ py_id initial) →
          Forall (fun st => State_initial st = false) (list_ (__iter__ r))).
Proof.
  intros Hnew Henum Hh.
  destruct (from_enum_enumeration enum_type ms initial final use_enum_instance
              Henum Hh) as (fs & _ & Hr).
  eexists. split; [exact Hr|].
  assert (Forall2 (fun e st => State_initial st = py_is e initial) ms
            (list_ (__iter__ {| _states :=
               entry_of initial fs use_enum_instance <$> ms |}))) as HF.
  { apply Forall2_entries. intros e _. simpl. apply Hnew. }
  split.
  - eapply Forall2_impl; [exact HF|]. intros e st ->. simpl.
    unfold py_is. apply bool_decide_eq_true.
  - intros Hnot. eapply Forall2_Forall_r; [exact HF|].
    apply Forall_forall. intros e He st ->.
    unfold py_is. apply bool_decide_eq_false. by apply Hnot.
Qed.

Lemma key_eq_member_None e : is_member e → key_eq e PyNone = false.
Proof.
  destruct e as [| | | a n v m |]; simpl; try done. intros _.
  unfold key_eq. change (int_key PyNone) with (@None Z).
  assert (py_is (PyMember a n v m) PyNone = false) as ->
    by (unfold py_is; by apply bool_decide_eq_false).
  by destruct (int_key (PyMember a n v m)).
Qed.

(** C7.  The adapter turns the final selector into one set [fs], whatever
    the shape of the selector: [fs] holds elements of the normalised
    selector, holds an equal of each of them, and holds no two elements that
    compare equal.  The entity built for a constant is marked final exactly
    when the constant is in [fs], by the comparison of a set (equality of the
    enumeration with the same hash, identity for a plain [Enum]).  An absent
    selector leaves every entity not final; a selector that is a single
    object gives the set of that object, so that a constant is final exactly
    when it equals it; a collection marks exactly the constants that equal
    one of its elements. *)
Theorem from_enum_final enum_type ms initial final use_enum_instance :
  State_new_reads_back →
  enumeration enum_type ms → hashable_selector final →
  ∃ fs r,
    py_set (ensure_iterable final) = Return fs ∧
    lists_a_set fs ∧
    (∀ x, x ∈ fs → x ∈ ensure_iterable final) ∧
    (∀ x, x ∈ ensure_iterable final → ∃ y, y ∈ fs ∧ key_eq x y = true) ∧
    from_enum enum_type initial final use_enum_instance = Return r ∧
    Forall2 (fun e st =>
               State_final st = true ↔ ∃ x, x ∈ fs ∧ key_eq e x = true)
            ms (list_ (__iter__ r)) ∧
    (final = PyNone →
       Forall (fun st => State_final st = false) (list_ (__iter__ r))) ∧
    (∀ exc, py_iter final = Raise exc →
       fs = [final] ∧
       Forall2 (fun e st => State_final st = key_eq e final)
               ms (list_ (__iter__ r)) ∧
       Forall2 (fun e st =>
                  is_plain_member e →
                  (State_final st = true ↔ py_id e = py_id final))
               ms (list_ (__iter__ r))) ∧
    (∀ cs, py_iter final = Return cs → coherent (ms ++ cs) →
       Forall2 (fun e st =>
                  State_final st = true ↔ ∃ c, c ∈ cs ∧ key_eq e c = true)
               ms (list_ (__iter__ r)) ∧
       Forall2 (fun e st =>
                  is_plain_member e →
                  (State_final st = true ↔ ∃ c, c ∈ cs ∧ py_id e = py_id c))
               ms (list_ (__iter__ r))).
Proof.
  intros Hnew Henum Hh.
  destruct (py_set_spec _ Hh) as (fs & Hfs & Hsub & Hcover).
  pose proof Henum as (Hit & Hm & Hnd).
  exists fs. eexists. split; [exact Hfs|].
  split; [by eapply py_set_lists_a_set|].
  split; [exact Hsub|]. split; [exact Hcover|].
  split; [by apply from_enum_members|].
  rewrite Forall_forall in Hm.
  assert (Forall2 (fun e st => (e ∈ ms ∧ is_member e) ∧
                     State_final st = existsb (key_eq e) fs) ms
            (list_ (__iter__ {| _states :=
               entry_of initial fs use_enum_instance <$> ms |}))) as HF.
  { apply Forall2_entries. intros e He. split; [by auto|]. simpl. apply Hnew. }
  split_and!.
  - eapply Forall2_impl; [exact HF|]. intros e st [_ ->]. apply existsb_true.
  - intros ->. simpl in Hfs. injection Hfs as <-.
    eapply Forall2_Forall_r; [exact HF|].
    apply Forall_forall. intros e _ st [[_ He] ->]. simpl.
    by rewrite key_eq_member_None.
  - intros exc Hexc.
    assert (fs = [final]) as ->.
    { unfold hashable_selector, ensure_iterable in Hh. rewrite Hexc in Hh.
      apply Forall_cons_1 in Hh as [Hfinal _].
      unfold ensure_iterable in Hfs. rewrite Hexc in Hfs.
      unfold py_set, set_add_all, set_contains in Hfs. rewrite Hfinal in Hfs.
      simpl in Hfs. by injection Hfs as <-. }
    split; [done|]. split.
    + eapply Forall2_impl; [exact HF|]. intros e st [_ ->]. simpl.
      apply orb_false_r.
    + eapply Forall2_impl; [exact HF|]. intros e st [_ ->] Hplain. simpl.
      rewrite orb_false_r, key_eq_plain by done.
      unfold py_is. apply bool_decide_eq_true.
  - intros cs Hcs Hco.
    assert (ensure_iterable final = cs) as Hens.
    { unfold ensure_iterable. by rewrite Hcs. }
    rewrite Hens in Hsub, Hcover.
    assert (Forall2 (fun e st => e ∈ ms ∧
              (State_final st = true ↔ ∃ c, c ∈ cs ∧ key_eq e c = true)) ms
              (list_ (__iter__ {| _states :=
                 entry_of initial fs use_enum_instance <$> ms |}))) as HG.
    { eapply Forall2_impl; [exact HF|]. intros e st [[He _] ->].
      split; [done|]. rewrite existsb_true. split.
      - intros (x & Hx & Hex). exists x. auto.
      - intros (c & Hc & Hec). destruct (Hcover c Hc) as (y & Hy & Hcy).
        exists y. split; [done|].
        apply (key_eq_trans (ms ++ cs) e c y); try done;
          apply elem_of_app; auto. }
    split.
    + eapply Forall2_impl; [exact HG|]. by intros e st [_ ?].
    + eapply Forall2_impl; [exact HG|]. intros e st [_ Hiff] Hplain.
      rewrite Hiff. split; intros (c & Hc & Hec); exists c; split; try done.
      * rewrite key_eq_plain in Hec by done.
        unfold py_is in Hec. by apply bool_decide_eq_true in Hec.
      * rewrite key_eq_plain by done. unfold py_is.
        by apply bool_decide_eq_true.
Qed.

Lemma from_enum_not_iterable enum_type initial final flag exc :
  py_iter enum_type = Raise exc →
  ∃ exc', from_enum enum_type initial final flag = Raise exc' ∧
          (hashable_selector final → exc' = exc).
Proof.
  intros Hexc. rewrite from_enum_unfold.
  destruct (py_set (ensure_iterable final)) as [fs|exc0] eqn:Hfs; simpl.
  - rewrite Hexc. simpl. eauto.
  - exists exc0. split; [done|]. intros Hh.
    destruct (py_set_spec _ Hh) as (fs & Hfs' & _). congruence.
Qed.

Lemma from_enum_malformed enum_type initial final flag pre e0 post :
  py_iter enum_type = Return (pre ++ e0 :: post) →
  Forall is_member pre → ¬ is_member e0 →
  ∃ exc', from_enum enum_type initial final flag = Raise exc' ∧
          (hashable_selector final → exc' = no_attribute e0 "name").
Proof.
  intros Hit Hpre He0. rewrite from_enum_unfold.
  destruct (py_set (ensure_iterable final)) as [fs|exc0] eqn:Hfs; simpl.
  - rewrite Hit. simpl. rewrite dict_comprehension_malformed by done. eauto.
  - exists exc0. split; [done|]. intros Hh.
    destruct (py_set_spec _ Hh) as (fs & Hfs' & _). congruence.
Qed.

(** C9, as corrected.  Direct construction checks nothing: [States(m)]
    returns a registry holding [m] as it is for every mapping [m], also one
    that breaks the documented shape.  The adapter fails at the call, before
    any registry exists, when the enumeration input is not iterable and when
    it yields an object that is no constant (has no [name]): it raises and
    returns no registry; with a hashable final selector the exception is the
    [TypeError] of the iteration in the first case and the [AttributeError]
    of the first such object in the second. *)
Theorem construction_failures (m : option (Dict.t State))
    enum_type initial final use_enum_instance :
  (States_call m = Return (__init__ m) ∧
   _states (__init__ m) = default Dict.empty m) ∧
  (∀ exc, py_iter enum_type = Raise exc →
     (∃ exc', from_enum enum_type initial final use_enum_instance = Raise exc') ∧
     (∀ r, from_enum enum_type initial final use_enum_instance ≠ Return r) ∧
     (hashable_selector final →
        from_enum enum_type initial final use_enum_instance = Raise exc ∧
        ∃ msg, exc = TypeError msg)) ∧
  (∀ pre e0 post,
     py_iter enum_type = Return (pre ++ e0 :: post) →
     Forall is_member pre → ¬ is_member e0 →
     (∃ exc', from_enum enum_type initial final use_enum_instance = Raise exc') ∧
     (∀ r, from_enum enum_type initial final use_enum_instance ≠ Return r) ∧
     (hashable_selector final →
        from_enum enum_type initial final use_enum_instance
        = Raise (no_attribute e0 "name") ∧
        is_missing_attribute_signal (no_attribute e0 "name") = true)).
Proof.
  split_and!; [reflexivity | by destruct m | |].
  - intros exc Hexc.
    destruct (from_enum_not_iterable enum_type initial final use_enum_instance
                exc Hexc) as (exc' & Hr & Hsame).
    split_and!; [by exists exc' | by rewrite Hr |].
    intros Hh. rewrite Hr, (Hsame Hh). split; [done|].
    destruct enum_type; simpl in Hexc; try done; injection Hexc as <-; eauto.
  - intros pre e0 post Hit Hpre He0.
    destruct (from_enum_malformed enum_type initial final use_enum_instance
                pre e0 post Hit Hpre He0) as (exc' & Hr & Hsame).
    split_and!; [by exists exc' | by rewrite Hr |].
    intros Hh. by rewrite Hr, (Hsame Hh).
Qed.
End AdapterProperties.

(** ** Worked examples on the sample data *)

Lemma SimpleState_new_reads_back : @State_new_reads_back Sample.SimpleState _.
Proof. intros v i f. by split_and!. Qed.

Lemma SimpleState_eq_reflexive : @State_eq_reflexive Sample.SimpleState _.
Proof. intros s. simpl. apply String.eqb_refl. Qed.

Lemma ABC_wf : Dict.wf (_states Sample.ABC).
Proof. unfold Dict.wf. apply (bool_decide_unpack _). by vm_compute. Qed.

Lemma ABC_keyed_by_id : keyed_by_id (_states Sample.ABC).
Proof. unfold keyed_by_id. simpl. by repeat constructor. Qed.

Lemma Status_enumeration :
  enumeration Sample.Status [Sample.pending; Sample.completed].
Proof.
  split_and!; [reflexivity | by repeat constructor |].
  apply (bool_decide_unpack _). by vm_compute.
Qed.

(** On the registry [A, B, C], appending [B'] gives [A, B', C]. *)
Lemma append_replaces_in_place_witness :
  Dict.wf (_states Sample.ABC) ∧
  Dict.keys (_states Sample.ABC) !! 1 = Some (State_id Sample.B') ∧
  list_ (__iter__ (append Sample.ABC Sample.B'))
  = [Sample.A; Sample.B'; Sample.C].
Proof.
  split_and!; [exact ABC_wf | reflexivity |].
  exact (proj1 (append_replaces_in_place Sample.ABC Sample.B' 1 ABC_wf eq_refl)).
Defined.

(** The result is not the move-to-end order [A, C, B']. *)
Example append_is_not_move_to_end :
  list_ (__iter__ (append Sample.ABC Sample.B'))
  ≠ [Sample.A; Sample.C; Sample.B'].
Proof. vm_compute. intros [=]. Qed.

(** An id that is not registered goes to the end. *)
Example append_new_id :
  list_ (__iter__ (append Sample.ABC (Sample.plain "D" 4)))
  = [Sample.A; Sample.B; Sample.C; Sample.plain "D" 4].
Proof. reflexivity. Qed.

(** [ABC.B] is the entity [B], and [ABC.missing] raises [AttributeError]. *)
Lemma lookup_by_name_witness :
  Dict.wf (_states Sample.ABC) ∧ keyed_by_id (_states Sample.ABC) ∧
  __getattr__ Sample.ABC "B" = Return Sample.B ∧
  ∃ exc, __getattr__ Sample.ABC "missing" = Raise exc ∧
         exc = AttributeError "missing not found in States" ∧
         is_missing_attribute_signal exc = true.
Proof.
  split_and!; [exact ABC_wf | exact ABC_keyed_by_id | |].
  - apply (proj2 (lookup_by_name Sample.ABC "B" ABC_wf ABC_keyed_by_id) Sample.B);
      [| reflexivity].
    apply list_elem_of_In. simpl. auto.
  - apply (proj1 (lookup_by_name Sample.ABC "missing" ABC_wf ABC_keyed_by_id)).
    intros s Hs%list_elem_of_In. simpl in Hs.
    destruct Hs as [<-|[<-|[<-|[]]]]; discriminate.
Defined.

(** C2 as stated fails: in the empty registry the lookup of ["missing"]
    raises [AttributeError], the generic signal of a missing attribute, and
    not an error kind of its own. *)
Lemma lookup_by_name_counterexample :
  __getattr__ (__init__ (State := Sample.SimpleState) None) "missing"
  = Raise (AttributeError "missing not found in States") ∧
  ¬ (∀ (self : @States Sample.SimpleState) (name : string),
       (∀ s, s ∈ Dict.values (_states self) → State_id s ≠ name) →
       ∃ exc, __getattr__ self name = Raise exc ∧
              is_missing_attribute_signal exc = false).
Proof.
  split; [reflexivity|]. intros Hclaim.
  destruct (Hclaim (__init__ None) "missing") as (exc & Hexc & Hkind).
  - intros s Hs. by apply elem_of_nil in Hs.
  - vm_compute in Hexc. injection Hexc as <-. discriminate Hkind.
Qed.

(** The registry built by storing A, B and C in this order iterates as
    [A, B, C], from the first entry at every call. *)
Lemma iteration_in_insertion_order_witness :
  let pairs := [("A", Sample.A); ("B", Sample.B); ("C", Sample.C)] in
  NoDup pairs.*1 ∧
  list_ (__iter__ Sample.ABC) = [Sample.A; Sample.B; Sample.C] ∧
  list_ (advance 2 (__iter__ Sample.ABC)) = [Sample.C] ∧
  (next (advance 3 (__iter__ Sample.ABC))).1 = None.
Proof.
  intros pairs.
  assert (NoDup pairs.*1) as Hnd by (apply (bool_decide_unpack _); by vm_compute).
  pose proof (iteration_in_insertion_order (_states Sample.ABC)) as Hit.
  simpl in Hit. destruct Hit as (_ & _ & Hrestart & Hend & Hpairs).
  split_and!; [exact Hnd | | |].
  - exact (Hpairs pairs eq_refl Hnd).
  - exact (proj1 (Hrestart 2)).
  - exact Hend.
Defined.

(** [ABC] equals itself and a registry built from the same input, and
    differs from the registry built from the reversed input. *)
Lemma eq_iff_elementwise_witness :
  @State_eq_reflexive Sample.SimpleState _ ∧
  head (Dict.values (_states Sample.ABC)) = Some Sample.A ∧
  last (Dict.values (_states Sample.ABC)) = Some Sample.C ∧
  State_eq Sample.A Sample.C = false ∧
  __eq__ Sample.ABC Sample.ABC = true ∧
  __eq__ Sample.ABC (__init__ (Some (reverse (_states Sample.ABC)))) = false.
Proof.
  pose proof (eq_iff_elementwise Sample.ABC Sample.ABC (_states Sample.ABC)
                SimpleState_eq_reflexive) as (_ & Hsame & Hrev).
  split_and!; [exact SimpleState_eq_reflexive | reflexivity | reflexivity
              | reflexivity | exact Hsame |].
  exact (Hrev Sample.A Sample.C eq_refl eq_refl eq_refl).
Defined.

(** C4 as stated fails: a registry built from an input with one entity
    equals the registry built from the reversed input. *)
Lemma eq_reversed_counterexample :
  __eq__ (__init__ (Some [("A", Sample.A)]))
         (__init__ (Some (reverse [("A", Sample.A)]))) = true ∧
  ¬ (∀ d : Dict.t Sample.SimpleState,
       __eq__ (__init__ (Some d)) (__init__ (Some (reverse d))) = false).
Proof.
  split; [reflexivity|]. intros Hclaim.
  specialize (Hclaim [("A", Sample.A)]). vm_compute in Hclaim. discriminate.
Qed.

(** A registry equals the plain list of its entities, and two registries
    with different keys and the same entities are equal. *)
Lemma eq_any_iterable_witness :
  __eq__ Sample.ABC [Sample.A; Sample.B; Sample.C] = true ∧
  __eq__ Sample.ABC [Sample.A; Sample.C; Sample.B] = false ∧
  __eq__ (__init__ (Some [("x", Sample.A); ("y", Sample.B)]))
         (__init__ (Some [("p", Sample.A); ("q", Sample.B)])) = true.
Proof.
  pose proof (eq_any_iterable Sample.ABC [Sample.A; Sample.B; Sample.C])
    as (_ & Hlist & Hkeys).
  split_and!.
  - apply Hlist. simpl. by repeat constructor.
  - apply not_true_is_false. intros Heq%Hlist. simpl in Heq.
    apply Forall2_cons_1 in Heq as [_ Heq].
    apply Forall2_cons_1 in Heq as [Hbc _]. discriminate Hbc.
  - apply Hkeys. simpl. by repeat constructor.
Defined.

(** The state with id ["append"]: [shadowed.append] is the method, and
    [items()] and iteration yield the state. *)
Lemma reserved_name_shadows_entity_witness :
  Dict.wf (_states Sample.shadowed) ∧ keyed_by_id (_states Sample.shadowed) ∧
  Sample.state_append ∈ Dict.values (_states Sample.shadowed) ∧
  State_id Sample.state_append ∈ class_namespace ∧
  getattr [] Sample.shadowed "append" = Return (ClassAttribute "append") ∧
  getattr [] Sample.shadowed "append" ≠ Return (Entity Sample.state_append) ∧
  ("append", Sample.state_append) ∈ items Sample.shadowed ∧
  Sample.state_append ∈ list_ (__iter__ Sample.shadowed).
Proof.
  assert (Dict.wf (_states Sample.shadowed)) as Hwf
    by (apply (bool_decide_unpack _); by vm_compute).
  assert (keyed_by_id (_states Sample.shadowed)) as Hk
    by (unfold keyed_by_id; simpl; by repeat constructor).
  assert (Sample.state_append ∈ Dict.values (_states Sample.shadowed)) as Hin
    by (apply list_elem_of_In; simpl; auto).
  assert (State_id Sample.state_append ∈ class_namespace) as Hres
    by (apply list_elem_of_In; simpl; auto 10).
  pose proof (reserved_name_shadows_entity [] Sample.shadowed
                Sample.state_append Hwf Hk Hin Hres)
    as (Hget & Hne & _ & Hitems & Hiter).
  by split_and!.
Defined.

(** A state whose id is no reserved name is reached by its name. *)
Example getattr_unshadowed :
  getattr [] Sample.shadowed "A" = Return (Entity Sample.A).
Proof. reflexivity. Qed.

(** [States.from_enum(Status, initial=Status.pending, final=Status.completed)]
    as the documentation of [from_enum] has it. *)
Example from_enum_Status :
  from_enum Sample.Status Sample.pending Sample.completed false
  = Return (__init__ (Some
      [("pending", State_new (PyInt 1 1) true false);
       ("completed", State_new (PyInt 2 2) false true)])).
Proof. reflexivity. Qed.

Lemma selector_None_hashable : hashable_selector PyNone.
Proof. unfold hashable_selector. simpl. by repeat constructor. Qed.

Lemma selector_completed_hashable : hashable_selector Sample.completed.
Proof. unfold hashable_selector. simpl. by repeat constructor. Qed.

(** With the flag unset the value of a state is the scalar of its constant,
    and with the flag set it is the constant. *)
Lemma from_enum_value_witness :
  @State_new_reads_back Sample.SimpleState _ ∧
  enumeration Sample.Status [Sample.pending; Sample.completed] ∧
  hashable_selector PyNone ∧
  (∃ r, from_enum Sample.Status Sample.pending PyNone false = Return r ∧
        ∃ st, __getattr__ r "completed" = Return st ∧
              State_value st = PyInt 2 2) ∧
  (∃ r, from_enum Sample.Status Sample.pending PyNone true = Return r ∧
        ∃ st, __getattr__ r "completed" = Return st ∧
              State_value st = Sample.completed ∧
              py_is (State_value st) Sample.completed = true).
Proof.
  assert (Sample.completed ∈ [Sample.pending; Sample.completed]) as Hin
    by (apply list_elem_of_In; simpl; auto).
  split_and!; [exact SimpleState_new_reads_back | exact Status_enumeration
              | exact selector_None_hashable | |].
  - destruct (from_enum_value Sample.Status _ Sample.pending PyNone false
                SimpleState_new_reads_back Status_enumeration
                selector_None_hashable) as (r & Hr & Hall).
    exists r. split; [exact Hr|].
    destruct (Hall _ Hin) as (st & Hst & Hscalar & _).
    exists st. split; [exact Hst | exact (Hscalar eq_refl)].
  - destruct (from_enum_value Sample.Status _ Sample.pending PyNone true
                SimpleState_new_reads_back Status_enumeration
                selector_None_hashable) as (r & Hr & Hall).
    exists r. split; [exact Hr|].
    destruct (Hall _ Hin) as (st & Hst & _ & Hsame).
    exists st. split; [exact Hst | exact (Hsame eq_refl)].
Defined.

(** [pending] is the initial state when it is designated; a constant of
    another enumeration with the same name and value designates none. *)
Lemma from_enum_initial_witness :
  @State_new_reads_back Sample.SimpleState _ ∧
  enumeration Sample.Status [Sample.pending; Sample.completed] ∧
  hashable_selector PyNone ∧
  (∃ r, from_enum Sample.Status Sample.pending PyNone false = Return r ∧
        Forall2 (fun e st =>
                   State_initial st = true ↔ py_id e = py_id Sample.pending)
                [Sample.pending; Sample.completed] (list_ (__iter__ r))) ∧
  (∃ r, from_enum Sample.Status Sample.foreign_pending PyNone false = Return r ∧
        Forall (fun st => State_initial st = false) (list_ (__iter__ r))).
Proof.
  split_and!; [exact SimpleState_new_reads_back | exact Status_enumeration
              | exact selector_None_hashable | |].
  - destruct (from_enum_initial Sample.Status _ Sample.pending PyNone false
                SimpleState_new_reads_back Status_enumeration
                selector_None_hashable) as (r & Hr & Hflags & _).
    exists r. by split.
  - destruct (from_enum_initial Sample.Status _ Sample.foreign_pending PyNone
                false SimpleState_new_reads_back Status_enumeration
                selector_None_hashable) as (r & Hr & _ & Hnone).
    exists r. split; [exact Hr|]. apply Hnone.
    intros e He%list_elem_of_In. simpl in He.
    destruct He as [<-|[<-|[]]]; discriminate.
Defined.

Example from_enum_initial_by_identity :
  (fun r => list_ (__iter__ r))
    <$> from_enum Sample.Status Sample.pending PyNone false
  = Return [State_new (PyInt 1 1) true false; State_new (PyInt 2 2) false false]
  ∧ (fun r => list_ (__iter__ r))
    <$> from_enum Sample.Status Sample.foreign_pending PyNone false
  = Return [State_new (PyInt 1 1) false false; State_new (PyInt 2 2) false false].
Proof. split; reflexivity. Qed.

Lemma Level_enumeration : enumeration Sample.Level [Sample.low; Sample.high].
Proof.
  split_and!; [reflexivity | by repeat constructor |].
  apply (bool_decide_unpack _). by vm_compute.
Qed.

Lemma selector_two_hashable : hashable_selector Sample.two.
Proof. unfold hashable_selector. simpl. by repeat constructor. Qed.

Lemma selector_repeated_hashable :
  hashable_selector
    (PyList 300 [Sample.high; Sample.two; Sample.low; Sample.high]).
Proof. unfold hashable_selector. simpl. by repeat constructor. Qed.

Lemma Level_selector_coherent :
  coherent ([Sample.low; Sample.high]
            ++ [Sample.high; Sample.two; Sample.low; Sample.high]).
Proof.
  intros x y Hx%list_elem_of_In Hy%list_elem_of_In Hid.
  simpl in Hx, Hy. destruct_or!; subst; try done; discriminate Hid.
Qed.

(** [class Level(IntEnum): low = 1; high = 2].  With [final=2] the set is
    that of the integer, and [high], which equals 2, is final.  With the
    collection [final=[high, 2, low, high]] the set keeps one of the equal
    elements [high] and [2], and a constant is final when it equals an
    element of the collection. *)
Lemma from_enum_final_witness :
  let repeated := PyList 300 [Sample.high; Sample.two; Sample.low; Sample.high] in
  @State_new_reads_back Sample.SimpleState _ ∧
  enumeration Sample.Level [Sample.low; Sample.high] ∧
  hashable_selector Sample.two ∧
  hashable_selector repeated ∧
  coherent ([Sample.low; Sample.high]
            ++ [Sample.high; Sample.two; Sample.low; Sample.high]) ∧
  (∃ fs r,
     py_set (ensure_iterable Sample.two) = Return fs ∧
     fs = [Sample.two] ∧
     from_enum Sample.Level Sample.low Sample.two false = Return r ∧
     Forall2 (fun e st => State_final st = key_eq e Sample.two)
             [Sample.low; Sample.high] (list_ (__iter__ r)) ∧
     State_final <$> list_ (__iter__ r) = [false; true]) ∧
  (∃ fs r,
     py_set (ensure_iterable repeated) = Return fs ∧
     lists_a_set fs ∧
     fs = [Sample.high; Sample.low] ∧
     from_enum Sample.Level Sample.low repeated false = Return r ∧
     Forall2 (fun e st =>
                State_final st = true ↔
                ∃ c, c ∈ [Sample.high; Sample.two; Sample.low; Sample.high] ∧
                     key_eq e c = true)
             [Sample.low; Sample.high] (list_ (__iter__ r))).
Proof.
  intros repeated.
  split_and!; [exact SimpleState_new_reads_back | exact Level_enumeration
              | exact selector_two_hashable | exact selector_repeated_hashable
              | exact Level_selector_coherent | |].
  - destruct (from_enum_final Sample.Level _ Sample.low Sample.two false
                SimpleState_new_reads_back Level_enumeration
                selector_two_hashable)
      as (fs & r & Hfs & _ & _ & _ & Hr & _ & _ & Hsingle & _).
    exists fs, r. destruct (Hsingle _ eq_refl) as (Hset & Hflags & _).
    split_and!; [exact Hfs | exact Hset | exact Hr | exact Hflags |].
    vm_compute in Hr. by injection Hr as <-.
  - destruct (from_enum_final Sample.Level _ Sample.low repeated false
                SimpleState_new_reads_back Level_enumeration
                selector_repeated_hashable)
      as (fs & r & Hfs & Hset & _ & _ & Hr & _ & _ & _ & Hmany).
    exists fs, r.
    destruct (Hmany _ eq_refl Level_selector_coherent) as (Hflags & _).
    split_and!; [exact Hfs | exact Hset | | exact Hr | exact Hflags].
    vm_compute in Hfs. by injection Hfs as <-.
Defined.

(** The same selectors by computation: [final=2] marks [high] of the
    [IntEnum] and no constant of the plain [Status]; a set holds [high] and
    [2] as one element. *)
Example from_enum_final_by_value :
  (fun r => State_final <$> list_ (__iter__ r))
    <$> from_enum (State := Sample.SimpleState)
          Sample.Level Sample.low Sample.two false
  = Return [false; true] ∧
  (fun r => State_final <$> list_ (__iter__ r))
    <$> from_enum (State := Sample.SimpleState)
          Sample.Status Sample.pending Sample.two false
  = Return [false; false] ∧
  py_set [Sample.high; Sample.two; Sample.low; Sample.high]
  = Return [Sample.high; Sample.low] ∧
  py_set [Sample.two; Sample.high] = Return [Sample.two].
Proof. by split_and!. Qed.

(** The three shapes of the selector: absent, a single constant, a
    collection (here with a repeated constant). *)
Example from_enum_final_shapes :
  (fun r => State_final <$> list_ (__iter__ r))
    <$> from_enum Sample.Status Sample.pending PyNone false
  = Return [false; false] ∧
  (fun r => State_final <$> list_ (__iter__ r))
    <$> from_enum Sample.Status Sample.pending Sample.completed false
  = Return [false; true] ∧
  (fun r => State_final <$> list_ (__iter__ r))
    <$> from_enum Sample.Status Sample.pending
          (PyList 300 [Sample.completed; Sample.pending; Sample.completed]) false
  = Return [true; true] ∧
  py_set (ensure_iterable
            (PyList 300 [Sample.completed; Sample.pending; Sample.completed]))
  = Return [Sample.completed; Sample.pending].
Proof. by split_and!. Qed.

(** A mapping with a key that is not the id is accepted; an integer in
    place of the enumeration and a list with an integer in it are refused at
    the call. *)
Lemma construction_failures_witness :
  hashable_selector PyNone ∧
  States_call (Some Sample.miskeyed) = Return (__init__ (Some Sample.miskeyed)) ∧
  from_enum (State := Sample.SimpleState) (PyInt 9 3) Sample.pending PyNone false
  = Raise (TypeError "'int' object is not iterable") ∧
  from_enum (State := Sample.SimpleState)
    (PyList 9 [Sample.pending; PyInt 7 7]) Sample.pending PyNone false
  = Raise (AttributeError "'int' object has no attribute 'name'").
Proof.
  split_and!; [exact selector_None_hashable | |  |].
  - exact (proj1 (proj1 (construction_failures (Some Sample.miskeyed)
                           PyNone PyNone PyNone false))).
  - destruct (construction_failures (State := Sample.SimpleState) None
                (PyInt 9 3) Sample.pending PyNone false) as (_ & Hiter & _).
    destruct (Hiter _ eq_refl) as (_ & _ & Hexact).
    exact (proj1 (Hexact selector_None_hashable)).
  - destruct (construction_failures (State := Sample.SimpleState) None
                (PyList 9 [Sample.pending; PyInt 7 7]) Sample.pending PyNone false)
      as (_ & _ & Hbad).
    destruct (Hbad [Sample.pending] (PyInt 7 7) [] eq_refl) as (_ & _ & Hexact).
    + by repeat constructor.
    + intros [].
    + exact (proj1 (Hexact selector_None_hashable)).
Defined.

(** C9 as stated fails for direct construction: the mapping that stores the
    state with id ["y"] under the key ["x"] is accepted, and the call returns
    a registry holding it. *)
Lemma direct_construction_counterexample :
  States_call (Some Sample.miskeyed) = Return {| _states := Sample.miskeyed |} ∧
  ¬ keyed_by_id Sample.miskeyed ∧
  ¬ (∀ d : Dict.t Sample.SimpleState,
       ¬ keyed_by_id d → ∃ exc, States_call (Some d) = Raise exc).
Proof.
  assert (¬ keyed_by_id Sample.miskeyed) as Hbad.
  { intros Hk. apply Forall_cons_1 in Hk as [Hxy _]. discriminate Hxy. }
  split_and!; [reflexivity | exact Hbad |].
  intros Hclaim. destruct (Hclaim _ Hbad) as (exc & Hexc). discriminate Hexc.
Qed.

(** ** Further properties of the registry *)

Section DictUpdates.
Context {V : Type}.
Implicit Types (d : Dict.t V) (k : string) (v : V).

Lemma get_setitem_eq d k v : Dict.get (Dict.setitem d k v) k = Some v.
Proof.
  induction d as [|[k' v'] d IH]; simpl.
  - by rewrite String.eqb_refl.
  - destruct (String.eqb_spec k' k) as [->|Hne]; simpl.
    + by rewrite String.eqb_refl.
    + by destruct (String.eqb_spec k' k).
Qed.

Lemma get_setitem_ne d k k' v :
  k ≠ k' → Dict.get (Dict.setitem d k v) k' = Dict.get d k'.
Proof.
  intros Hne. induction d as [|[k0 v0] d IH]; simpl.
  - by destruct (String.eqb_spec k k').
  - destruct (String.eqb_spec k0 k) as [->|Hk0]; simpl.
    + by destruct (String.eqb_spec k k').
    + by rewrite IH.
Qed.

Lemma setitem_setitem d k v1 v2 :
  Dict.setitem (Dict.setitem d k v1) k v2 = Dict.setitem d k v2.
Proof.
  induction d as [|[k' v'] d IH]; simpl.
  - by rewrite String.eqb_refl.
  - destruct (String.eqb_spec k' k) as [->|Hne]; simpl.
    + by rewrite String.eqb_refl.
    + destruct (String.eqb_spec k' k); [done|]. by rewrite IH.
Qed.

Lemma setitem_elem d k v k' v' :
  (k', v') ∈ Dict.setitem d k v → (k', v') = (k, v) ∨ (k', v') ∈ d.
Proof.
  induction d as [|[k0 v0] d IH]; simpl.
  - intros ->%list_elem_of_singleton. by left.
  - destruct (String.eqb_spec k0 k) as [->|Hne].
    + intros [->|Hin]%elem_of_cons; [by left | right; by right].
    + intros [->|Hin]%elem_of_cons; [right; left|].
      destruct (IH Hin); [by left | right; by right].
Qed.
End DictUpdates.

Section RegistryExtras.
Context `{StateClass State}.
Implicit Types (self : @States State) (d : Dict.t State) (e s : State).

(** X1.  [append] of an entity whose id is not yet a key puts the entity at
    the end: iteration and [items()] are the old ones followed by the new
    entry, and the length grows by one. *)
Theorem append_new_goes_last self e :
  State_id e ∉ Dict.keys (_states self) →
  list_ (__iter__ (append self e)) = list_ (__iter__ self) ++ [e] ∧
  items (append self e) = items self ++ [(State_id e, e)] ∧
  __len__ (append self e) = S (__len__ self).
Proof.
  intros Hnew.
  assert (items (append self e) = items self ++ [(State_id e, e)]) as Hitems.
  { unfold items, Dict.items. simpl. by apply DictFacts.setitem_miss. }
  split_and!; [| done |].
  - rewrite !list_iter. unfold items, Dict.items in Hitems.
    unfold Dict.values. rewrite Hitems. by rewrite fmap_app.
  - unfold __len__, Dict.len. unfold items, Dict.items in Hitems.
    rewrite Hitems, length_app. simpl. lia.
Qed.

(** X2.  After [append e], lookup-by-name of the id of [e] returns [e],
    whatever the registry held before, and the lookup of every other name
    gives what it gave before. *)
Theorem append_then_lookup self e :
  __getattr__ (append self e) (State_id e) = Return e ∧
  ∀ name, name ≠ State_id e →
    __getattr__ (append self e) name = __getattr__ self name.
Proof.
  split.
  - unfold __getattr__, Dict.contains, Dict.getitem. simpl.
    by rewrite get_setitem_eq.
  - intros name Hne. unfold __getattr__, Dict.contains, Dict.getitem. simpl.
    by rewrite get_setitem_ne.
Qed.

Lemma append_keeps_keyed_by_id self e :
  keyed_by_id (_states self) → keyed_by_id (_states (append self e)).
Proof.
  unfold keyed_by_id. rewrite !Forall_forall. intros Hk [k s] Hin.
  apply setitem_elem in Hin as [[= -> ->]|Hin]; [done | by apply Hk].
Qed.

(** X3.  A registry assembled from the empty one by [append] alone has no
    key twice, stores every entity under its own id, and holds only appended
    entities. *)
Theorem appended_registry_well_formed (es : list State) :
  let self := foldl append (__init__ None) es in
  Dict.wf (_states self) ∧
  keyed_by_id (_states self) ∧
  ∀ s, s ∈ list_ (__iter__ self) → s ∈ es.
Proof.
  simpl. induction es as [|e es IH] using rev_ind.
  - split_and!; [apply NoDup_nil_2 | apply Forall_nil_2 |].
    intros s Hs. by rewrite list_iter in Hs.
  - rewrite foldl_app. simpl. destruct IH as (Hwf & Hk & Hsub).
    split_and!.
    + by apply DictFacts.setitem_wf.
    + by apply append_keeps_keyed_by_id.
    + intros s Hs. rewrite list_iter in Hs.
      apply list_elem_of_fmap_1 in Hs as ([k s'] & -> & Hin). simpl.
      apply elem_of_app.
      apply setitem_elem in Hin as [[= -> ->]|Hin]; [right; left|].
      left. apply Hsub. rewrite list_iter.
      by apply (list_elem_of_fmap_2 snd) in Hin.
Qed.

(** X4.  Of two appends with one id the later wins: the registry is the one
    the later append alone gives.  In particular an append repeated changes
    nothing more. *)
Theorem append_last_wins self e1 e2 :
  State_id e1 = State_id e2 →
  append (append self e1) e2 = append self e2 ∧
  append (append self e2) e2 = append self e2.
Proof.
  intros Hid. unfold append. simpl. split; f_equal.
  - rewrite Hid. apply setitem_setitem.
  - apply setitem_setitem.
Qed.

(** X5.  [len] counts the entities of the iteration and the pairs of
    [items()]; the second components of [items()] are the iteration; and in
    a registry keyed by id, [items()] pairs each iterated entity with its
    id. *)
Theorem len_items_iteration self :
  __len__ self = length (list_ (__iter__ self)) ∧
  __len__ self = length (items self) ∧
  (items self).*2 = list_ (__iter__ self) ∧
  (keyed_by_id (_states self) →
     items self = (fun s => (State_id s, s)) <$> list_ (__iter__ self)).
Proof.
  rewrite list_iter. unfold __len__, Dict.len, items, Dict.items, Dict.values.
  split_and!; [by rewrite length_fmap | done | done |].
  unfold keyed_by_id. generalize (_states self).
  induction 1 as [|[k s] d Hks _ IH]; [done|]. simpl in *. by rewrite Hks, IH at 1.
Qed.

(** X6.  Lookup-by-name has two outcomes only: an entity that [items()]
    holds under that name, or [AttributeError] for a name that is no key.
    The indexing [self._states[name]] is guarded by the membership test, so
    [KeyError] never escapes. *)
Theorem lookup_outcomes self name :
  ((∃ s, __getattr__ self name = Return s ∧ (name, s) ∈ items self) ∨
   (__getattr__ self name
    = Raise (AttributeError (name +:+ " not found in States")) ∧
    name ∉ Dict.keys (_states self))) ∧
  (∀ k, __getattr__ self name ≠ Raise (KeyError k)) ∧
  (∀ msg, __getattr__ self name ≠ Raise (TypeError msg)).
Proof.
  unfold __getattr__, Dict.contains, Dict.getitem.
  destruct (Dict.get (_states self) name) as [s|] eqn:E.
  - split_and!; [left | done | done].
    exists s. split; [done | by apply DictFacts.get_Some_elem].
  - split_and!; [right | done | done].
    split; [done | by apply DictFacts.get_None].
Qed.
End RegistryExtras.

Section AccessExtras.
Context `{StateClass State}.
Implicit Types (self : @States State) (s : State).

(** X7.  An entity whose id is neither a name of the class nor ["_states"]
    is reached by attribute access: [states.<id>] is the entity. *)
Theorem unreserved_id_reachable implicit self s :
  Dict.wf (_states self) → keyed_by_id (_states self) →
  s ∈ Dict.values (_states self) →
  State_id s ∉ class_namespace ++ implicit →
  State_id s ≠ "_states" →
  getattr implicit self (State_id s) = Return (Entity s).
Proof.
  intros Hwf Hk Hs Hfree Hne. unfold getattr.
  rewrite bool_decide_eq_false_2 by done.
  destruct (String.eqb_spec (State_id s) "_states") as [|_]; [done|].
  rewrite (getattr_present self (State_id s) s); [done | done |].
  by apply keyed_by_id_pair.
Qed.

(** X8.  The attribute [_states] of the instance shadows an entity with the
    id ["_states"] as the methods do: [states._states] is the dictionary, not
    the entity, which [items()] still holds. *)
Theorem states_attribute_shadows_entity implicit self s :
  keyed_by_id (_states self) →
  s ∈ Dict.values (_states self) →
  State_id s = "_states" →
  "_states" ∉ implicit →
  getattr implicit self (State_id s) = Return (InstanceAttribute (_states self)) ∧
  getattr implicit self (State_id s) ≠ Return (Entity s) ∧
  (State_id s, s) ∈ items self.
Proof.
  intros Hk Hs Hid Himp.
  assert (getattr implicit self (State_id s)
          = Return (InstanceAttribute (_states self))) as Hget.
  { unfold getattr. rewrite Hid. rewrite bool_decide_eq_false_2; [done|].
    intros [Hc|Hi]%elem_of_app; [|done].
    apply list_elem_of_In in Hc. simpl in Hc.
    repeat (destruct Hc as [Hc|Hc]; [discriminate Hc|]). done. }
  split_and!; [done | by rewrite Hget | by apply keyed_by_id_pair].
Qed.

(** X9.  Registries of different lengths are unequal: when [__eq__] answers
    true the operand iterates as many elements as the registry has, and a
    registry equals the empty list exactly when it is empty. *)
Theorem eq_needs_same_length {A} `{Iterable State A} self (other : A) :
  (__eq__ self other = true → __len__ self = length (list_ (iter other))) ∧
  (__len__ self ≠ length (list_ (iter other)) → __eq__ self other = false) ∧
  (__eq__ self ([] : list State) = true ↔ __len__ self = 0).
Proof.
  assert (__eq__ self other = true →
          __len__ self = length (list_ (iter other))) as Hlen.
  { intros Heq%eq_iff_Forall2. apply Forall2_length in Heq.
    rewrite list_iter in Heq. unfold Dict.values in Heq.
    by rewrite length_fmap in Heq. }
  split_and!; [done | |].
  - intros Hne. apply not_true_is_false. intros Heq. by apply Hne, Hlen.
  - rewrite (eq_iff_Forall2 self ([] : list State)), list_iter.
    unfold iter, list_Iterable. rewrite list_fresh.
    unfold __len__, Dict.len, Dict.values.
    destruct (_states self) as [|kv d]; simpl.
    + split; [done | constructor].
    + split; [intros HF; inversion HF | done].
Qed.

(** X10.  [__eq__] on registries inherits symmetry and transitivity from
    the comparison of the elements. *)
Theorem eq_symmetric_transitive (r1 r2 r3 : @States State) :
  ((∀ a b : State, State_eq a b = State_eq b a) →
     __eq__ r1 r2 = __eq__ r2 r1) ∧
  ((∀ a b c : State, State_eq a b = true → State_eq b c = true →
                     State_eq a c = true) →
     __eq__ r1 r2 = true → __eq__ r2 r3 = true → __eq__ r1 r3 = true).
Proof.
  split.
  - intros Hsym.
    assert (∀ x y : @States State, __eq__ x y = true → __eq__ y x = true) as Hdir.
    { intros x y Hxy. apply (eq_iff_Forall2 y x).
      apply (eq_iff_Forall2 x y) in Hxy. apply Forall2_flip.
      eapply Forall2_impl; [exact Hxy|]. intros a b Hab. simpl. by rewrite Hsym. }
    destruct (__eq__ r1 r2) eqn:E12, (__eq__ r2 r1) eqn:E21; try done.
    + apply Hdir in E12. congruence.
    + apply Hdir in E21. congruence.
  - intros Htrans H12 H23. apply (eq_iff_Forall2 r1 r3).
    apply (eq_iff_Forall2 r1 r2) in H12. apply (eq_iff_Forall2 r2 r3) in H23.
    eapply Forall2_trans; [|exact H12|exact H23].
    intros a b c. apply Htrans.
Qed.
End AccessExtras.

(** ** Further properties of the enumeration adapter *)

Lemma set_add_all_unhashable (s pre post : list PyObj) (x : PyObj) :
  Forall (fun y => hashable y = true) pre → hashable x = false →
  set_add_all s (pre ++ x :: post)
  = Raise (TypeError ("unhashable type: '" +:+ type_name x +:+ "'")).
Proof.
  intros Hpre Hx. revert s. induction Hpre as [|y pre Hy _ IH]; intros s; simpl.
  - unfold set_contains. by rewrite Hx.
  - unfold set_contains. rewrite Hy. simpl. apply IH.
Qed.

Section AdapterExtras.
Context `{StateClass State}.
Implicit Types (enum_type initial final : PyObj) (ms fs : list PyObj).
Implicit Types (d acc : Dict.t State).

(** The comprehension over members is a left fold of assignments. *)
Lemma dict_comprehension_fold initial fs flag ms acc :
  Forall is_member ms →
  dict_comprehension (from_enum_body initial fs flag) ms acc
  = Return (foldl (fun d e => Dict.setitem d (entry_of initial fs flag e).1
                                (entry_of initial fs flag e).2) acc ms).
Proof.
  intros Hm. revert acc. induction Hm as [|e ms He _ IH]; intros acc; simpl.
  - done.
  - rewrite from_enum_body_member by done. simpl. apply IH.
Qed.

Lemma dict_comprehension_wf body (l : list PyObj) acc d :
  Dict.wf acc → dict_comprehension body l acc = Return d → Dict.wf d.
Proof.
  revert acc. induction l as [|e l IH]; intros acc Hwf; simpl.
  - by intros [= <-].
  - destruct (body e) as [[k v]|exc]; simpl; [|done].
    apply IH. by apply DictFacts.setitem_wf.
Qed.

Lemma fold_setitem_get (f : PyObj → string * State) (l : list PyObj) acc k :
  k ∉ (fun e => (f e).1) <$> l →
  Dict.get (foldl (fun d e => Dict.setitem d (f e).1 (f e).2) acc l) k
  = Dict.get acc k.
Proof.
  revert acc. induction l as [|e l IH]; intros acc Hk; simpl; [done|].
  simpl in Hk. apply not_elem_of_cons in Hk as [Hne Hk].
  rewrite IH by done. by apply get_setitem_ne.
Qed.

Lemma fold_setitem_length (f : PyObj → string * State) (l : list PyObj) acc :
  length (foldl (fun d e => Dict.setitem d (f e).1 (f e).2) acc l)
  ≤ length acc + length l.
Proof.
  revert acc. induction l as [|e l IH]; intros acc; simpl; [lia|].
  etrans; [apply IH|].
  assert (length (Dict.setitem acc (f e).1 (f e).2) ≤ S (length acc)); [|lia].
  generalize (f e).1 (f e).2. intros k v.
  induction acc as [|[k' v'] acc IHa]; simpl; [lia|].
  destruct (String.eqb k' k); simpl; lia.
Qed.

(** X11.  The registry of an enumeration has one entry per constant, under
    the name of the constant and in declaration order. *)
Theorem from_enum_declaration_order enum_type ms initial final flag :
  enumeration enum_type ms → hashable_selector final →
  ∃ r, from_enum enum_type initial final flag = Return r ∧
       (items r).*1 = member_name <$> ms ∧
       __len__ r = length ms ∧
       length (list_ (__iter__ r)) = length ms.
Proof.
  intros Henum Hh.
  destruct (from_enum_enumeration enum_type ms initial final flag Henum Hh)
    as (fs & _ & Hr).
  eexists. split; [exact Hr|].
  split_and!.
  - apply entries_keys.
  - unfold __len__, Dict.len. simpl. by rewrite length_fmap.
  - rewrite list_iter. simpl. rewrite entries_values. by rewrite length_fmap.
Qed.

Lemma set_add_all_outcome (l s : list PyObj) :
  Forall (fun x => hashable x = true) l ∨
  ∃ msg, set_add_all s l = Raise (TypeError msg).
Proof.
  revert s. induction l as [|x l IH]; intros s; simpl.
  - left. constructor.
  - unfold set_contains. destruct (hashable x) eqn:Hx; simpl.
    + destruct (IH (if existsb (key_eq x) s then s else s ++ [x]))
        as [Hl|Hraise]; [left; by constructor | by right].
    + right. by eexists.
Qed.

(** X12.  An enumeration without constants gives the empty registry, the
    one [States()] builds, for every [initial] and [use_enum_instance] and
    every hashable final selector; a selector with an unhashable element
    makes the call raise [TypeError] here too.  A registry that the call
    returns is empty: of length 0, with nothing to iterate and no name to
    look up. *)
Theorem from_enum_empty enum_type initial final flag :
  py_iter enum_type = Return [] →
  (hashable_selector final →
     from_enum enum_type initial final flag = Return (__init__ None)) ∧
  (¬ hashable_selector final →
     ∃ msg, from_enum enum_type initial final flag = Raise (TypeError msg)) ∧
  (∀ r, from_enum enum_type initial final flag = Return r →
     r = __init__ None ∧ __len__ r = 0 ∧ list_ (__iter__ r) = [] ∧
     ∀ name, ∃ msg, __getattr__ r name = Raise (AttributeError msg)).
Proof.
  intros Hit.
  assert (∀ r, from_enum enum_type initial final flag = Return r →
               r = __init__ None) as Hempty.
  { intros r. rewrite from_enum_unfold.
    destruct (py_set (ensure_iterable final)) as [fs|]; simpl; [|done].
    rewrite Hit. simpl. by intros [= <-]. }
  split_and!.
  - intros Hh. destruct (py_set_spec _ Hh) as (fs & Hfs & _).
    rewrite from_enum_unfold, Hfs. simpl. by rewrite Hit.
  - intros Hn. rewrite from_enum_unfold. unfold py_set.
    destruct (set_add_all_outcome (ensure_iterable final) []) as [Hh|[msg ->]];
      [by destruct Hn | by exists msg].
  - intros r Hr. rewrite (Hempty r Hr).
    split_and!; [done | done | done |]. intros name. by eexists.
Qed.

(** X13.  A final selector with an unhashable element makes the adapter
    raise [TypeError] before it looks at the enumeration: the error is the
    same for every [enum_type], iterable or not. *)
Theorem from_enum_unhashable_selector enum_type initial final flag pre x post :
  ensure_iterable final = pre ++ x :: post →
  Forall (fun y => hashable y = true) pre → hashable x = false →
  from_enum enum_type initial final flag
  = Raise (TypeError ("unhashable type: '" +:+ type_name x +:+ "'")).
Proof.
  intros Hsel Hpre Hx. rewrite from_enum_unfold, Hsel. unfold py_set.
  by rewrite set_add_all_unhashable.
Qed.

(** X14.  When the constants of the enumeration are different objects, at
    most one entity of the registry is marked initial. *)
Theorem from_enum_at_most_one_initial enum_type ms initial final flag :
  State_new_reads_back →
  enumeration enum_type ms → hashable_selector final →
  NoDup (py_id <$> ms) →
  ∃ r, from_enum enum_type initial final flag = Return r ∧
       ∀ i j si sj,
         list_ (__iter__ r) !! i = Some si → list_ (__iter__ r) !! j = Some sj →
         State_initial si = true → State_initial sj = true → i = j.
Proof.
  intros Hnew Henum Hh Hids.
  destruct (from_enum_enumeration enum_type ms initial final flag Henum Hh)
    as (fs & _ & Hr).
  eexists. split; [exact Hr|].
  intros i j si sj. rewrite list_iter. simpl. rewrite entries_values.
  rewrite !list_lookup_fmap.
  destruct (ms !! i) as [ei|] eqn:Ei; [|done].
  destruct (ms !! j) as [ej|] eqn:Ej; [|done].
  simpl. intros [= <-] [= <-].
  destruct (Hnew (if flag then ei else member_value ei) (py_is ei initial)
              (existsb (key_eq ei) fs)) as (_ & -> & _).
  destruct (Hnew (if flag then ej else member_value ej) (py_is ej initial)
              (existsb (key_eq ej) fs)) as (_ & -> & _).
  unfold py_is. rewrite !bool_decide_eq_true. intros Hi Hj.
  eapply NoDup_lookup; [exact Hids | |].
  - rewrite list_lookup_fmap, Ei. simpl. by rewrite Hi.
  - rewrite list_lookup_fmap, Ej. simpl. by rewrite Hj.
Qed.

(** X15.  [use_enum_instance] decides the values of the entities and
    nothing else: with it set or unset the registry has the same keys in the
    same order and the same initial and final flags. *)
Theorem use_enum_instance_only_changes_value enum_type ms initial final :
  State_new_reads_back →
  enumeration enum_type ms → hashable_selector final →
  ∃ r0 r1,
    from_enum enum_type initial final false = Return r0 ∧
    from_enum enum_type initial final true = Return r1 ∧
    (items r0).*1 = (items r1).*1 ∧
    Forall2 (fun a b => State_initial a = State_initial b ∧
                        State_final a = State_final b)
            (list_ (__iter__ r0)) (list_ (__iter__ r1)).
Proof.
  intros Hnew Henum Hh.
  destruct (py_set_spec _ Hh) as (fs & Hfs & _).
  destruct Henum as (Hit & Hm & Hnd).
  exists {| _states := entry_of initial fs false <$> ms |},
         {| _states := entry_of initial fs true <$> ms |}.
  split_and!; [by apply from_enum_members | by apply from_enum_members | |].
  - unfold items, Dict.items. simpl. by rewrite <- !list_fmap_compose.
  - rewrite !list_iter. simpl. rewrite !entries_values.
    apply Forall2_fmap, Forall_Forall2_diag, Forall_forall.
    intros e _. simpl.
    destruct (Hnew e (py_is e initial) (existsb (key_eq e) fs)) as (_ & -> & ->).
    by destruct (Hnew (member_value e) (py_is e initial)
                   (existsb (key_eq e) fs)) as (_ & -> & ->).
Qed.

(** X16.  When the input yields two constants with one name (constants of
    two enumerations in one list), the adapter does not fail: the name is
    one key, and the lookup of the name gives the entity of the last such
    constant. *)
Theorem from_enum_duplicate_name_last_wins
    enum_type pre e post initial final flag :
  State_new_reads_back →
  py_iter enum_type = Return (pre ++ e :: post) →
  Forall is_member (pre ++ e :: post) →
  member_name e ∉ member_name <$> post →
  hashable_selector final →
  ∃ r st,
    from_enum enum_type initial final flag = Return r ∧
    __getattr__ r (member_name e) = Return st ∧
    State_value st = (if flag then e else member_value e) ∧
    State_initial st = py_is e initial ∧
    __len__ r ≤ length (pre ++ e :: post) ∧
    Dict.wf (_states r).
Proof.
  intros Hnew Hit Hm Hlast Hh.
  destruct (py_set_spec _ Hh) as (fs & Hfs & _).
  set (f := entry_of initial fs flag).
  set (d := foldl (fun d e => Dict.setitem d (f e).1 (f e).2) Dict.empty
              (pre ++ e :: post)).
  assert (from_enum enum_type initial final flag = Return {| _states := d |})
    as Hr.
  { rewrite from_enum_unfold, Hfs. simpl. rewrite Hit. simpl.
    by rewrite dict_comprehension_fold. }
  assert (Dict.get d (member_name e) = Some (f e).2) as Hget.
  { unfold d. rewrite foldl_app. cbn [foldl].
    rewrite (fold_setitem_get f post) by exact Hlast.
    apply (get_setitem_eq _ (f e).1). }
  exists {| _states := d |}, (f e).2. split_and!.
  - exact Hr.
  - unfold __getattr__, Dict.contains, Dict.getitem. simpl. by rewrite Hget.
  - simpl. apply Hnew.
  - simpl. apply Hnew.
  - unfold __len__, Dict.len. simpl. unfold d.
    etrans; [apply fold_setitem_length|]. simpl. lia.
  - simpl. unfold d.
    assert (∀ l acc, Dict.wf acc →
      Dict.wf (foldl (fun d e => Dict.setitem d (f e).1 (f e).2) acc l)) as Hwf.
    { induction l as [|x l IH]; intros acc Hacc; simpl; [done|].
      apply IH. by apply DictFacts.setitem_wf. }
    apply Hwf, NoDup_nil_2.
Qed.

(** Whatever the input, a registry that the adapter returns has no key
    twice. *)
Lemma from_enum_distinct_keys enum_type initial final flag r :
  from_enum enum_type initial final flag = Return r →
  Dict.wf (_states r).
Proof.
  rewrite from_enum_unfold.
  destruct (py_set (ensure_iterable final)) as [fs|]; simpl; [|done].
  destruct (py_iter enum_type) as [members|]; simpl; [|done].
  destruct (dict_comprehension _ members Dict.empty) as [d|] eqn:Hd;
    simpl; [|done].
  intros [= <-]. simpl.
  eapply dict_comprehension_wf; [|exact Hd]. apply NoDup_nil_2.
Qed.
End AdapterExtras.

(** ** Properties of the shared dictionary *)
Section SharedExtras.
Context `{StateClass State}.
Implicit Types (h : @Shared.Store State) (e : State).

Lemma dict_at_alter h (f : Dict.t State → Dict.t State) a b :
  a < length h →
  Shared.dict_at (alter f a h) b
  = if decide (a = b) then f (Shared.dict_at h a) else Shared.dict_at h b.
Proof.
  intros Ha. unfold Shared.dict_at, Shared.Store in *.
  destruct (decide (a = b)) as [<-|Hne].
  - rewrite list_lookup_alter_eq.
    destruct (lookup_lt_is_Some_2 h a Ha) as [d ->]. done.
  - by rewrite list_lookup_alter_ne.
Qed.

Lemma dict_at_app_l h h' a :
  a < length h → Shared.dict_at (h ++ h') a = Shared.dict_at h a.
Proof.
  intros Ha. unfold Shared.dict_at, Shared.Store in *. by rewrite lookup_app_l.
Qed.

Lemma dict_at_new h h' :
  Shared.dict_at (h ++ Dict.empty :: h') (length h) = Dict.empty.
Proof.
  unfold Shared.dict_at, Shared.Store in *. by rewrite list_lookup_middle.
Qed.

(** The in-place [append] does to the dictionary of the object what [append]
    does to a registry, and leaves every other dictionary as it is. *)
Lemma shared_append_contents h (self : Shared.Object) e :
  Shared._states self < length h →
  Shared.contents (Shared.append self e h) self
  = append (Shared.contents h self) e ∧
  ∀ a, a ≠ Shared._states self →
       Shared.dict_at (Shared.append self e h) a = Shared.dict_at h a.
Proof.
  intros Ha. unfold Shared.contents, Shared.append, append. simpl. split.
  - rewrite dict_at_alter by done. by rewrite decide_True.
  - intros a Hne. rewrite dict_at_alter by done. by rewrite decide_False.
Qed.

(** X17.  A registry built from a dictionary shares it: after an [append]
    through the registry, the dictionary that was passed in holds the new
    entry, and so do a second registry built from the same dictionary and a
    view that [items()] of it gave out. *)
Theorem supplied_dictionary_is_shared h (a : nat) e :
  a < length h →
  let r1 := (Shared.__init__ (Some a) h).1 in
  let h1 := (Shared.__init__ (Some a) h).2 in
  let r2 := (Shared.__init__ (Some a) h1).1 in
  let h2 := (Shared.__init__ (Some a) h1).2 in
  let view := Shared.items r2 in
  let h3 := Shared.append r1 e h2 in
  Shared.dict_at h3 a = Dict.setitem (Shared.dict_at h a) (State_id e) e ∧
  Shared.contents h3 r2 = append (Shared.contents h r2) e ∧
  Shared.view_pairs h3 view = items (append (Shared.contents h r2) e) ∧
  Shared.__len__ r2 h3 = __len__ (append (Shared.contents h r2) e).
Proof.
  intros Ha. simpl.
  pose proof (shared_append_contents h {| Shared._states := a |} e Ha)
    as [Hsame _].
  unfold Shared.contents in Hsame. simpl in Hsame.
  injection Hsame as Hdict.
  unfold Shared.contents, Shared.view_pairs, Shared.__len__, Shared.items.
  simpl. by rewrite Hdict.
Qed.

(** X18.  Two registries built without an argument do not share: each call
    of [__init__] makes a dictionary of its own, so an [append] to one
    registry leaves the other empty, and no dictionary that existed before
    is touched. *)
Theorem default_dictionaries_are_distinct h e :
  let r1 := (Shared.__init__ None h).1 in
  let h1 := (Shared.__init__ None h).2 in
  let r2 := (Shared.__init__ None h1).1 in
  let h2 := (Shared.__init__ None h1).2 in
  let h3 := Shared.append r1 e h2 in
  Shared._states r1 ≠ Shared._states r2 ∧
  Shared.contents h2 r1 = __init__ None ∧
  Shared.contents h3 r1 = append (__init__ None) e ∧
  Shared.contents h3 r2 = __init__ None ∧
  ∀ a, a < length h → Shared.dict_at h3 a = Shared.dict_at h a.
Proof.
  simpl. unfold Shared.new_dict. simpl.
  assert (length h < length ((h ++ [Dict.empty]) ++ [Dict.empty])) as Hlt
    by (rewrite !length_app; simpl; lia).
  pose proof (shared_append_contents ((h ++ [Dict.empty]) ++ [Dict.empty])
                {| Shared._states := length h |} e Hlt) as [Hsame Hframe].
  assert (Shared.dict_at ((h ++ [Dict.empty]) ++ [Dict.empty]) (length h)
          = Dict.empty) as Hr1.
  { rewrite <- app_assoc. apply dict_at_new. }
  assert (Shared.dict_at ((h ++ [Dict.empty]) ++ [Dict.empty])
            (length (h ++ [Dict.empty])) = Dict.empty) as Hr2
    by apply dict_at_new.
  split_and!.
  - rewrite length_app. simpl. lia.
  - unfold Shared.contents. simpl. by rewrite Hr1.
  - rewrite Hsame. unfold Shared.contents. simpl. by rewrite Hr1.
  - unfold Shared.contents. simpl. rewrite Hframe.
    + by rewrite Hr2.
    + simpl. rewrite length_app. simpl. lia.
  - intros a Ha. rewrite Hframe by (simpl; lia).
    rewrite <- app_assoc. by apply dict_at_app_l.
Qed.
End SharedExtras.

(** ** Worked examples for the further properties *)

(** [D] is new in [A, B, C] and goes to the end. *)
Lemma append_new_goes_last_witness :
  (State_id (Sample.plain "D" 4) ∉ Dict.keys (_states Sample.ABC)) ∧
  list_ (__iter__ (append Sample.ABC (Sample.plain "D" 4)))
  = [Sample.A; Sample.B; Sample.C; Sample.plain "D" 4] ∧
  __len__ (append Sample.ABC (Sample.plain "D" 4)) = 4.
Proof.
  assert (State_id (Sample.plain "D" 4) ∉ Dict.keys (_states Sample.ABC))
    as Hnew by (apply (bool_decide_unpack _); by vm_compute).
  destruct (append_new_goes_last Sample.ABC (Sample.plain "D" 4) Hnew)
    as (Hiter & _ & Hlen).
  split_and!; [exact Hnew | exact Hiter | exact Hlen].
Defined.

(** Appending [B] and then [B'] is appending [B']. *)
Lemma append_last_wins_witness :
  State_id Sample.B = State_id Sample.B' ∧
  append (append Sample.ABC Sample.B) Sample.B' = append Sample.ABC Sample.B'.
Proof.
  split; [reflexivity|].
  exact (proj1 (append_last_wins Sample.ABC Sample.B Sample.B' eq_refl)).
Defined.

(** In the registry with the states [A] and [append], [A] is reached by its
    name. *)
Lemma unreserved_id_reachable_witness :
  Dict.wf (_states Sample.shadowed) ∧ keyed_by_id (_states Sample.shadowed) ∧
  Sample.A ∈ Dict.values (_states Sample.shadowed) ∧
  (State_id Sample.A ∉ class_namespace ++ []) ∧
  State_id Sample.A ≠ "_states" ∧
  getattr [] Sample.shadowed "A" = Return (Entity Sample.A).
Proof.
  assert (Dict.wf (_states Sample.shadowed)) as Hwf
    by (apply (bool_decide_unpack _); by vm_compute).
  assert (keyed_by_id (_states Sample.shadowed)) as Hk
    by (unfold keyed_by_id; simpl; by repeat constructor).
  assert (Sample.A ∈ Dict.values (_states Sample.shadowed)) as Hin
    by (apply list_elem_of_In; simpl; auto).
  assert (State_id Sample.A ∉ class_namespace ++ []) as Hfree
    by (apply (bool_decide_unpack _); by vm_compute).
  assert (State_id Sample.A ≠ "_states") as Hne by discriminate.
  split_and!; [done | done | done | done | done |].
  exact (unreserved_id_reachable [] Sample.shadowed Sample.A
           Hwf Hk Hin Hfree Hne).
Defined.

(** A state with the id ["_states"]: [states._states] is the dictionary. *)
Lemma states_attribute_shadows_entity_witness :
  let s := Sample.plain "_states" 8 in
  let self := __init__ (Some [("A", Sample.A); ("_states", s)]) in
  keyed_by_id (_states self) ∧ s ∈ Dict.values (_states self) ∧
  State_id s = "_states" ∧ ("_states" ∉ ([] : list string)) ∧
  getattr [] self "_states" = Return (InstanceAttribute (_states self)) ∧
  ("_states", s) ∈ items self.
Proof.
  intros s self.
  assert (keyed_by_id (_states self)) as Hk
    by (unfold keyed_by_id; simpl; by repeat constructor).
  assert (s ∈ Dict.values (_states self)) as Hin
    by (apply list_elem_of_In; simpl; auto).
  assert ("_states" ∉ ([] : list string)) as Himp by apply not_elem_of_nil.
  destruct (states_attribute_shadows_entity [] self s Hk Hin eq_refl Himp)
    as (Hget & _ & Hitems).
  split_and!; [done | done | reflexivity | done | exact Hget | exact Hitems].
Defined.

(** The registry of [Status] has the keys ["pending"], ["completed"]. *)
Lemma from_enum_declaration_order_witness :
  enumeration Sample.Status [Sample.pending; Sample.completed] ∧
  hashable_selector PyNone ∧
  ∃ r : @States Sample.SimpleState,
    from_enum Sample.Status Sample.pending PyNone false = Return r ∧
    (items r).*1 = ["pending"; "completed"] ∧ __len__ r = 2.
Proof.
  split_and!; [exact Status_enumeration | exact selector_None_hashable |].
  destruct (from_enum_declaration_order (State := Sample.SimpleState)
              Sample.Status _ Sample.pending PyNone false
              Status_enumeration selector_None_hashable)
    as (r & Hr & Hkeys & Hlen & _).
  exists r. split_and!; [exact Hr | exact Hkeys | exact Hlen].
Defined.

(** An enumeration without constants, with the selector
    [final=Status.completed] and with [final=[[]]]. *)
Lemma from_enum_empty_witness :
  py_iter (PyEnum 400 []) = Return [] ∧
  hashable_selector Sample.completed ∧
  ¬ hashable_selector (PyList 300 [PyList 301 []]) ∧
  from_enum (State := Sample.SimpleState)
    (PyEnum 400 []) Sample.pending Sample.completed true
  = Return (__init__ None) ∧
  ∃ msg, from_enum (State := Sample.SimpleState)
           (PyEnum 400 []) Sample.pending (PyList 300 [PyList 301 []]) true
         = Raise (TypeError msg).
Proof.
  assert (¬ hashable_selector (PyList 300 [PyList 301 []])) as Hn.
  { intros Hh. apply Forall_cons_1 in Hh as [Hlist _]. discriminate Hlist. }
  split_and!; [reflexivity | exact selector_completed_hashable | exact Hn | |].
  - exact (proj1 (from_enum_empty (State := Sample.SimpleState) (PyEnum 400 [])
                    Sample.pending Sample.completed true eq_refl)
             selector_completed_hashable).
  - exact (proj1 (proj2 (from_enum_empty (State := Sample.SimpleState)
                           (PyEnum 400 []) Sample.pending
                           (PyList 300 [PyList 301 []]) true eq_refl)) Hn).
Defined.

(** [final=[Status.completed, []]]: the empty list cannot go into a set, and
    the error is the same for [Status] and for an integer in its place. *)
Lemma from_enum_unhashable_selector_witness :
  let final := PyList 300 [Sample.completed; PyList 301 []] in
  ensure_iterable final = [Sample.completed] ++ PyList 301 [] :: [] ∧
  from_enum (State := Sample.SimpleState) Sample.Status Sample.pending final false
  = Raise (TypeError "unhashable type: 'list'") ∧
  from_enum (State := Sample.SimpleState) (PyInt 9 3) Sample.pending final false
  = Raise (TypeError "unhashable type: 'list'").
Proof.
  intros final.
  assert (Forall (fun y => hashable y = true) [Sample.completed]) as Hpre
    by (by repeat constructor).
  split_and!; [reflexivity | |].
  - exact (from_enum_unhashable_selector (State := Sample.SimpleState)
             Sample.Status Sample.pending final false
             [Sample.completed] (PyList 301 []) [] eq_refl Hpre eq_refl).
  - exact (from_enum_unhashable_selector (State := Sample.SimpleState)
             (PyInt 9 3) Sample.pending final false
             [Sample.completed] (PyList 301 []) [] eq_refl Hpre eq_refl).
Defined.

Lemma Status_distinct_objects :
  NoDup (py_id <$> [Sample.pending; Sample.completed]).
Proof. apply (bool_decide_unpack _). by vm_compute. Qed.

(** In the registry of [Status] at most one state is initial. *)
Lemma from_enum_at_most_one_initial_witness :
  @State_new_reads_back Sample.SimpleState _ ∧
  enumeration Sample.Status [Sample.pending; Sample.completed] ∧
  hashable_selector PyNone ∧
  NoDup (py_id <$> [Sample.pending; Sample.completed]) ∧
  ∃ r : @States Sample.SimpleState,
    from_enum Sample.Status Sample.pending PyNone false = Return r ∧
    ∀ i j si sj,
      list_ (__iter__ r) !! i = Some si → list_ (__iter__ r) !! j = Some sj →
      State_initial si = true → State_initial sj = true → i = j.
Proof.
  split_and!; [exact SimpleState_new_reads_back | exact Status_enumeration
              | exact selector_None_hashable | exact Status_distinct_objects |].
  exact (from_enum_at_most_one_initial Sample.Status _ Sample.pending PyNone
           false SimpleState_new_reads_back Status_enumeration
           selector_None_hashable Status_distinct_objects).
Defined.

(** [Status] with the flag unset and set. *)
Lemma use_enum_instance_only_changes_value_witness :
  @State_new_reads_back Sample.SimpleState _ ∧
  enumeration Sample.Status [Sample.pending; Sample.completed] ∧
  hashable_selector Sample.completed ∧
  ∃ r0 r1 : @States Sample.SimpleState,
    from_enum Sample.Status Sample.pending Sample.completed false = Return r0 ∧
    from_enum Sample.Status Sample.pending Sample.completed true = Return r1 ∧
    (items r0).*1 = (items r1).*1 ∧
    Forall2 (fun a b => State_initial a = State_initial b ∧
                        State_final a = State_final b)
            (list_ (__iter__ r0)) (list_ (__iter__ r1)).
Proof.
  split_and!; [exact SimpleState_new_reads_back | exact Status_enumeration
              | exact selector_completed_hashable |].
  exact (use_enum_instance_only_changes_value Sample.Status _ Sample.pending
           Sample.completed SimpleState_new_reads_back Status_enumeration
           selector_completed_hashable).
Defined.

(** A list with [Status.pending] and the [pending] of another enumeration:
    one key, and the state of the later constant under it. *)
Lemma from_enum_duplicate_name_last_wins_witness :
  let input := PyList 500 [Sample.pending; Sample.completed;
                           Sample.foreign_pending] in
  @State_new_reads_back Sample.SimpleState _ ∧
  hashable_selector PyNone ∧
  ∃ (r : @States Sample.SimpleState) st,
    from_enum input Sample.pending PyNone true = Return r ∧
    __getattr__ r "pending" = Return st ∧
    State_value st = Sample.foreign_pending ∧
    State_initial st = false ∧
    __len__ r ≤ 3.
Proof.
  intros input.
  split_and!; [exact SimpleState_new_reads_back | exact selector_None_hashable |].
  destruct (from_enum_duplicate_name_last_wins (State := Sample.SimpleState)
              input [Sample.pending; Sample.completed] Sample.foreign_pending []
              Sample.pending PyNone true SimpleState_new_reads_back eq_refl)
    as (r & st & Hr & Hget & Hval & Hini & Hlen & _).
  - by repeat constructor.
  - apply not_elem_of_nil.
  - exact selector_None_hashable.
  - exists r, st. by split_and!.
Defined.

Example from_enum_duplicate_name_registry :
  (fun r => (items r).*1)
    <$> from_enum (State := Sample.SimpleState)
          (PyList 500 [Sample.pending; Sample.completed; Sample.foreign_pending])
          Sample.pending PyNone true
  = Return ["pending"; "completed"].
Proof. reflexivity. Qed.

(** The dictionary of [A, B, C] at address 0, and [B'] appended through a
    registry built from it. *)
Lemma supplied_dictionary_is_shared_witness :
  let h : Shared.Store := [_states Sample.ABC] in
  let r1 := (Shared.__init__ (Some 0) h).1 in
  let r2 := (Shared.__init__ (Some 0) h).1 in
  let h3 := Shared.append r1 Sample.B' h in
  0 < length h ∧
  Shared.dict_at h3 0 = [("A", Sample.A); ("B", Sample.B'); ("C", Sample.C)] ∧
  Shared.contents h3 r2 = append Sample.ABC Sample.B'.
Proof.
  intros h r1 r2 h3.
  assert (0 < length h) as Hlt by (simpl; lia).
  destruct (supplied_dictionary_is_shared h 0 Sample.B' Hlt)
    as (Hdict & Hother & _).
  split_and!; [exact Hlt | exact Hdict | exact Hother].
Defined.

(** [items()] of [A, B, C] pairs each state with its id. *)
Lemma len_items_iteration_witness :
  keyed_by_id (_states Sample.ABC) ∧
  __len__ Sample.ABC = 3 ∧
  items Sample.ABC
  = (fun s => (State_id s, s)) <$> [Sample.A; Sample.B; Sample.C].
Proof.
  destruct (len_items_iteration Sample.ABC) as (Hlen & _ & _ & Hpairs).
  split_and!; [exact ABC_keyed_by_id | exact Hlen |].
  exact (Hpairs ABC_keyed_by_id).
Defined.

(** [A, B, C] against a list of two and against the empty list. *)
Lemma eq_needs_same_length_witness :
  __len__ Sample.ABC ≠ length (list_ (iter [Sample.A; Sample.B])) ∧
  __eq__ Sample.ABC [Sample.A; Sample.B] = false ∧
  __eq__ (__init__ (State := Sample.SimpleState) None)
         ([] : list Sample.SimpleState) = true.
Proof.
  assert (__len__ Sample.ABC ≠ length (list_ (iter [Sample.A; Sample.B])))
    as Hne by (vm_compute; lia).
  split_and!; [exact Hne | |].
  - exact (proj1 (proj2 (eq_needs_same_length Sample.ABC
                           [Sample.A; Sample.B])) Hne).
  - apply (proj2 (proj2 (eq_needs_same_length
                           (__init__ (State := Sample.SimpleState) None)
                           ([] : list Sample.SimpleState)))).
    reflexivity.
Defined.

(** The comparison of the sample states, by id, is symmetric and
    transitive, and so is the equality of registries of them. *)
Lemma eq_symmetric_transitive_witness :
  let r := append Sample.ABC Sample.B' in
  (∀ a b : Sample.SimpleState, State_eq a b = State_eq b a) ∧
  (∀ a b c : Sample.SimpleState,
     State_eq a b = true → State_eq b c = true → State_eq a c = true) ∧
  __eq__ Sample.ABC r = __eq__ r Sample.ABC ∧
  __eq__ Sample.ABC Sample.ABC = true.
Proof.
  intros r.
  assert (∀ a b : Sample.SimpleState, State_eq a b = State_eq b a) as Hsym
    by (intros a b; simpl; apply String.eqb_sym).
  assert (∀ a b c : Sample.SimpleState,
            State_eq a b = true → State_eq b c = true → State_eq a c = true)
    as Htrans.
  { intros a b c. simpl. rewrite !String.eqb_eq. congruence. }
  split_and!; [exact Hsym | exact Htrans | |].
  - exact (proj1 (eq_symmetric_transitive Sample.ABC r Sample.ABC) Hsym).
  - apply (proj2 (eq_symmetric_transitive Sample.ABC r Sample.ABC) Htrans);
      reflexivity.
Defined.

(** ** The registry of an enumeration under attribute access *)
Section AdapterAccess.
Context `{StateClass State}.
Implicit Types (enum_type initial final : PyObj) (ms : list PyObj).

(** X19.  In the registry of an enumeration every constant has its entity
    under its name.  Attribute access by the name gives that entity when the
    name is neither a name of the class nor ["_states"], and the attribute of
    the class when the name is bound in the body of the class: a constant
    called [items] or [append] is shadowed. *)
Theorem from_enum_attribute_access implicit enum_type ms initial final flag :
  enumeration enum_type ms → hashable_selector final →
  ∃ r, from_enum enum_type initial final flag = Return r ∧
       ∀ B, B ∈ ms →
         ∃ st, __getattr__ r (member_name B) = Return st ∧
               (member_name B ∉ class_namespace ++ implicit →
                member_name B ≠ "_states" →
                getattr implicit r (member_name B) = Return (Entity st)) ∧
               (member_name B ∈ class_namespace →
                getattr implicit r (member_name B)
                = Return (ClassAttribute (member_name B))).
Proof.
  intros Henum Hh.
  destruct (from_enum_enumeration enum_type ms initial final flag Henum Hh)
    as (fs & _ & Hr).
  destruct Henum as (_ & _ & Hnd).
  eexists. split; [exact Hr|]. intros B HB.
  exists (entry_of initial fs flag B).2.
  assert (__getattr__ {| _states := entry_of initial fs flag <$> ms |}
            (member_name B) = Return (entry_of initial fs flag B).2) as Hget.
  { apply getattr_present; simpl.
    - unfold Dict.wf. by rewrite entries_keys.
    - by apply (list_elem_of_fmap_2 (entry_of initial fs flag)) in HB. }
  split_and!; [exact Hget | |].
  - intros Hfree Hne. unfold getattr.
    rewrite bool_decide_eq_false_2 by done.
    destruct (String.eqb_spec (member_name B) "_states") as [|_]; [done|].
    by rewrite Hget.
  - intros Hres. unfold getattr. rewrite bool_decide_eq_true_2; [done|].
    apply elem_of_app. by left.
Qed.
End AdapterAccess.

(** [class Kind(Enum): first = 1; items = 2]: [states.first] is the state,
    and [states.items] is the method. *)
Lemma from_enum_attribute_access_witness :
  let first := PyMember 601 "first" (PyInt 1 1) false in
  let items_ := PyMember 602 "items" (PyInt 2 2) false in
  let Kind := PyEnum 600 [first; items_] in
  enumeration Kind [first; items_] ∧ hashable_selector PyNone ∧
  ∃ r : @States Sample.SimpleState,
    from_enum Kind first PyNone false = Return r ∧
    getattr [] r "first" = Return (Entity (State_new (PyInt 1 1) true false)) ∧
    getattr [] r "items" = Return (ClassAttribute "items") ∧
    __getattr__ r "items" = Return (State_new (PyInt 2 2) false false).
Proof.
  intros first items_ Kind.
  assert (enumeration Kind [first; items_]) as Henum.
  { split_and!; [reflexivity | by repeat constructor |].
    apply (bool_decide_unpack _). by vm_compute. }
  split_and!; [exact Henum | exact selector_None_hashable |].
  destruct (from_enum_attribute_access (State := Sample.SimpleState) []
              Kind _ first PyNone false Henum selector_None_hashable)
    as (r & Hr & Hall).
  exists r. split; [exact Hr|].
  destruct (Hall first) as (st1 & Hget1 & Hfree & _);
    [apply list_elem_of_In; simpl; auto|].
  destruct (Hall items_) as (st2 & Hget2 & _ & Hshadow);
    [apply list_elem_of_In; simpl; auto|].
  vm_compute in Hr. injection Hr as <-.
  assert (st1 = State_new (PyInt 1 1) true false) as ->
    by (vm_compute in Hget1; by injection Hget1 as <-).
  split_and!.
  - apply Hfree; [|discriminate].
    apply (bool_decide_unpack _). by vm_compute.
  - apply Hshadow. apply list_elem_of_In. simpl. auto 10.
  - by vm_compute.
Defined.
